(** * qcardio: the QardioArm blood-pressure protocol engine

    A shallow embedding of [qcardio/commands/arm.py]: the SFLOAT decoder,
    the Blood Pressure Measurement parser, the condition and phase decoders,
    the two notification handlers of [_measure_async], the session itself
    and [Plugin.measure].

    Conventions.
    - A Python [bytes]/[bytearray] is a [list byte]; indexing past the end
      raises [IndexError], slicing never raises.
    - A Python call that may raise is a value of [res]: [Ret v] or
      [Raise e].
    - A Python integer is a [Z].  The number [mantissa * (10 ** exponent)]
      is kept as the exact rational it denotes ([Q]); Python stores it as an
      [int] for a non-negative exponent and as a binary64 [float] otherwise,
      and that rounding is outside this development. *)

From Stdlib Require Import ZArith QArith List String Bool Lia.
From Stdlib Require Import Strings.Byte DecimalString.
Import ListNotations.

Open Scope string_scope.
Open Scope list_scope.
Open Scope Z_scope.

(* ================================================================== *)
(** ** Python primitives used by the module *)

Module Py.

(** The exceptions that occur in [arm.py].  The two [Qardio...] classes are
    the module's own; [QardioConnectionError] keeps the exception it was
    raised [from] (its [__cause__]). *)
Inductive exn : Type :=
| IndexError
| ValueError (v : Z)
| BleakError (msg : string)
| TimeoutError
| OSError (msg : string)
| QardioConnectionError (msg : string) (cause : exn)
| QardioMeasurementAborted (msg : string).

(** The class of an exception: what an [except] clause and a caller's
    [isinstance] can see. *)
Inductive exn_class : Type :=
| cIndexError | cValueError | cBleakError | cTimeoutError | cOSError
| cQardioConnectionError | cQardioMeasurementAborted.

Definition class_of (e : exn) : exn_class :=
  match e with
  | IndexError => cIndexError
  | ValueError _ => cValueError
  | BleakError _ => cBleakError
  | TimeoutError => cTimeoutError
  | OSError _ => cOSError
  | QardioConnectionError _ _ => cQardioConnectionError
  | QardioMeasurementAborted _ => cQardioMeasurementAborted
  end.

(** [str(e)].  The payloads and the values read are [bytearray]s, whose
    [IndexError] says so; the only [ValueError] is that of [Phase(v)]. *)
Definition str_exn (e : exn) : string :=
  match e with
  | IndexError => "bytearray index out of range"
  | ValueError v =>
      (NilZero.string_of_int (Z.to_int v) ++ " is not a valid Phase")%string
  | BleakError msg => msg
  | TimeoutError => EmptyString
  | OSError msg => msg
  | QardioConnectionError msg _ => msg
  | QardioMeasurementAborted msg => msg
  end.

Inductive res (A : Type) : Type :=
| Ret (a : A)
| Raise (e : exn).

Arguments Ret {A} a.
Arguments Raise {A} e.

Definition bind {A B : Type} (c : res A) (k : A -> res B) : res B :=
  match c with
  | Ret a => k a
  | Raise e => Raise e
  end.

Definition raises {A : Type} (c : res A) : bool :=
  match c with
  | Ret _ => false
  | Raise _ => true
  end.

Definition bytes : Type := list byte.

(** [len(raw)] *)
Definition len (raw : bytes) : nat := List.length raw.

(** The integer value of a byte, [0..255]. *)
Definition u8 (b : byte) : Z := Z.of_N (Byte.to_N b).

(** [raw[i]] *)
Definition getitem (raw : bytes) (i : nat) : res Z :=
  match nth_error raw i with
  | Some b => Ret (u8 b)
  | None => Raise IndexError
  end.

(** [raw[lo:hi]]; a slice is clipped to the data and never raises. *)
Definition slice (raw : bytes) (lo hi : nat) : bytes :=
  firstn (hi - lo) (skipn lo raw).

(** [int.from_bytes(raw, 'little')] *)
Fixpoint int_from_bytes_little (raw : bytes) : Z :=
  match raw with
  | [] => 0
  | b :: rest => u8 b + 256 * int_from_bytes_little rest
  end.

(** Truth value of an integer: [if x:] *)
Definition truthy (x : Z) : bool := negb (x =? 0).

(** ["sep".join(parts)] *)
Definition join (sep : string) (parts : list string) : string :=
  String.concat sep parts.

End Py.

Import Py.

Notation "x <- c ;; k" := (bind c (fun x => k))
  (at level 61, c at next level, right associativity).

(* ================================================================== *)
(** ** [Phase] *)

Inductive Phase : Type :=
| INFLATING | MEASURING | DEFLATING | COMPLETED | ABORTED | ERROR.

Definition Phase_value (p : Phase) : Z :=
  match p with
  | INFLATING => 0x01
  | MEASURING => 0x02
  | DEFLATING => 0x03
  | COMPLETED => 0x04
  | ABORTED => 0x05
  | ERROR => 0x06
  end.

(** [Phase(v)]: lookup of a member by value; an [enum.Enum] raises
    [ValueError] for a value that no member has. *)
Definition Phase_of_value (v : Z) : res Phase :=
  if v =? 0x01 then Ret INFLATING
  else if v =? 0x02 then Ret MEASURING
  else if v =? 0x03 then Ret DEFLATING
  else if v =? 0x04 then Ret COMPLETED
  else if v =? 0x05 then Ret ABORTED
  else if v =? 0x06 then Ret ERROR
  else Raise (ValueError v).

(** [str(phase)] *)
Definition Phase_str (p : Phase) : string :=
  match p with
  | INFLATING => "Phase.INFLATING"
  | MEASURING => "Phase.MEASURING"
  | DEFLATING => "Phase.DEFLATING"
  | COMPLETED => "Phase.COMPLETED"
  | ABORTED => "Phase.ABORTED"
  | ERROR => "Phase.ERROR"
  end.

Definition Phase_eqb (p q : Phase) : bool := Phase_value p =? Phase_value q.

(* ================================================================== *)
(** ** [parse_sfloat] *)

(** The two signed fields of the 16-bit word, as the source extracts them. *)
Definition sfloat_mantissa (val : Z) : Z :=
  let mantissa := Z.land val 0x0FFF in
  if 0x0800 <=? mantissa then mantissa - 0x1000 else mantissa.

Definition sfloat_exponent (val : Z) : Z :=
  let exponent := Z.land (Z.shiftr val 12) 0x000F in
  if 0x0008 <=? exponent then exponent - 0x0010 else exponent.

(** [mantissa * (10 ** exponent)] *)
Definition times_pow10 (mantissa exponent : Z) : Q :=
  (inject_Z mantissa * 10 ^ exponent)%Q.

Definition parse_sfloat (raw : bytes) : res Q :=
  b0 <- getitem raw 0 ;;
  b1 <- getitem raw 1 ;;
  let val := Z.lor b0 (Z.shiftl b1 8) in
  Ret (times_pow10 (sfloat_mantissa val) (sfloat_exponent val)).

(* ================================================================== *)
(** ** [parse_bp_notification] *)

(** The dictionary the parser returns, one field per key. *)
Record reading : Type := mk_reading {
  m_flags : Z;
  m_unit : string;
  m_systolic : Q;
  m_diastolic : Q;
  m_map : Q;
  m_pulse : option Q;
  m_status : option Z
}.

Definition parse_bp_notification (data : bytes) : res reading :=
  flags <- getitem data 0 ;;
  let offset := 1%nat in
  let unit := if truthy (Z.land flags 0x01) then "kPa" else "mmHg" in
  systolic <- parse_sfloat (slice data offset (offset + 2)) ;;
  let offset := (offset + 2)%nat in
  diastolic <- parse_sfloat (slice data offset (offset + 2)) ;;
  let offset := (offset + 2)%nat in
  map_val <- parse_sfloat (slice data offset (offset + 2)) ;;
  let offset := (offset + 2)%nat in
  pulse_off <-
    (if truthy (Z.land flags 0x04)
     then p <- parse_sfloat (slice data offset (offset + 2)) ;;
          Ret (Some p, (offset + 2)%nat)
     else Ret (None, offset)) ;;
  let pulse := fst pulse_off in
  let offset := snd pulse_off in
  let status :=
    if truthy (Z.land flags 0x10)
    then Some (int_from_bytes_little (slice data offset (offset + 2)))
    else None in
  Ret (mk_reading flags unit systolic diastolic map_val pulse status).

(* ================================================================== *)
(** ** [decode_conditions] *)

Definition mapping : list (Z * string) :=
  [ (0, "body_movement");
    (1, "cuff_too_loose");
    (2, "irregular_pulse");
    (3, "pulse_rate_out_of_range") ].

Definition decode_conditions (status : Z) : list string :=
  map snd
    (filter (fun entry => truthy (Z.land status (Z.shiftl 1 (fst entry))))
       mapping).

(** [x or 0] for an optional integer [x]: [None] and [0] both give [0]. *)
Definition or_zero (x : option Z) : Z :=
  match x with
  | Some s => if truthy s then s else 0
  | None => 0
  end.


(* ================================================================== *)
(** ** [_measure_async]: the closure state and the two handlers *)

(** What [progress] is called with: [{"type":"bp", **m}] or
    [{"type":"phase","phase":p}]. *)
Inductive progress_info : Type :=
| InfoBp (m : reading)
| InfoPhase (p : Phase).

(** The cells shared by [_measure_async] and its nested handlers:
    [event], the dictionary [result] (empty until a final frame updates it,
    then holding that frame's seven keys), and [aborted].  [shown] lists the
    calls made to [progress], oldest first. *)
Record cells : Type := mk_cells {
  event : bool;
  result : option reading;
  aborted_flag : bool;
  aborted_reason : string;
  shown : list progress_info
}.

Definition fresh : cells := mk_cells false None false EmptyString [].

Definition event_set (st : cells) : cells :=
  mk_cells true (result st) (aborted_flag st) (aborted_reason st) (shown st).

Definition result_update (m : reading) (st : cells) : cells :=
  mk_cells (event st) (Some m) (aborted_flag st) (aborted_reason st) (shown st).

Definition aborted_set (reason : string) (st : cells) : cells :=
  mk_cells (event st) (result st) true reason (shown st).

(** [if progress: progress(info)] for a callback that returns;
    [progress] tells whether the caller passed one.  The callback of the
    shell writes to standard output and returns; [report_with] below
    takes any callback, also one that raises. *)
Definition report (progress : bool) (info : progress_info) (st : cells) : cells :=
  if progress
  then mk_cells (event st) (result st) (aborted_flag st) (aborted_reason st)
         (shown st ++ [info])
  else st.

Definition _decode_vendor (raw : bytes) : res (option Phase) :=
  if (len raw =? 2)%nat
  then b0 <- getitem raw 0 ;;
       if b0 =? 0xF2
       then b1 <- getitem raw 1 ;;
            p <- Phase_of_value b1 ;;
            Ret (Some p)
       else Ret None
  else Ret None.

(** The test [len(data)>=5 and data[0]==0x04 and data[1]==0xFF]. *)
Definition implicit_abort (data : bytes) : bool :=
  (5 <=? len data)%nat &&
  match getitem data 0, getitem data 1 with
  | Ret b0, Ret b1 => (b0 =? 0x04) && (b1 =? 0xFF)
  | _, _ => false
  end.

(** A handler leaves the cells as it changed them and either returns or
    raises into its caller. *)
Definition handle_measurement (progress : bool) (st : cells) (data : bytes)
  : cells * res unit :=
  match parse_bp_notification data with
  | Raise e => (st, Raise e)
  | Ret m =>
      if implicit_abort data then
        let status := int_from_bytes_little (slice data 3 5) in
        let st := aborted_set "arm movement" st in
        let st := report progress (InfoPhase ABORTED) st in
        let st := event_set st in
        (st, Raise (QardioMeasurementAborted "arm movement"))
      else
        let st := report progress (InfoBp m) st in
        if truthy (Z.land (m_flags m) 0x10)
        then (event_set (result_update m st), Ret tt)
        else (st, Ret tt)
  end.

Definition handle_control (progress : bool) (st : cells) (data : bytes)
  : cells * res unit :=
  match _decode_vendor data with
  | Raise e => (st, Raise e)
  | Ret None => (st, Ret tt)
  | Ret (Some phase) =>
      let st := report progress (InfoPhase phase) st in
      let st := if Phase_eqb phase COMPLETED then event_set st else st in
      if Phase_eqb phase ABORTED || Phase_eqb phase ERROR
      then (event_set st, Raise (QardioMeasurementAborted (Phase_str phase)))
      else (st, Ret tt)
  end.

(* ================================================================== *)
(** ** [_measure_async]: the session *)

(** One inbound notification, tagged with the characteristic it came on. *)
Inductive notification : Type :=
| OnMeasurement (data : bytes)
| OnControl (data : bytes).

(** What the transport does during one call of [_measure_async]:
    [setup] is the exception, if any, raised by connecting, by one of the
    two [start_notify] calls or by the start write; [inbound] lists the
    notifications the two handlers are called with, in order: those
    delivered before the timeout elapses or, when one of them sets
    [event] first, those delivered until the coroutine has resumed and
    the client is closed.  Nothing unsubscribes the handlers when [event]
    is set, so a notification that follows is handled like any other. *)
Record transport : Type := mk_transport {
  setup : option exn;
  inbound : list notification
}.

Definition dispatch (progress : bool) (st : cells) (n : notification)
  : cells * res unit :=
  match n with
  | OnMeasurement data => handle_measurement progress st data
  | OnControl data => handle_control progress st data
  end.

(** The cells while [await asyncio.wait_for(event.wait(), timeout)] is
    pending and until the client is closed.  The handlers are called by
    the transport's dispatcher, one notification at a time: an exception
    a handler raises unwinds into that dispatcher, not into the coroutine,
    which sees only the cells when it resumes.  Every notification of
    [pending] is handled, also after [event] is set; [unwound] collects
    what the handlers raised. *)
Fixpoint wait_for (progress : bool) (st : cells) (unwound : list exn)
    (pending : list notification) : cells * list exn :=
  match pending with
  | [] => (st, unwound)
  | n :: rest =>
      match dispatch progress st n with
      | (st', Ret _) => wait_for progress st' unwound rest
      | (st', Raise e) => wait_for progress st' (unwound ++ [e]) rest
      end
  end.

(** The clause [except (BleakError, asyncio.TimeoutError, OSError)]. *)
Definition caught (e : exn) : bool :=
  match e with
  | BleakError _ | TimeoutError | OSError _ => true
  | _ => false
  end.

Definition reraise {A : Type} (e : exn) : res A :=
  if caught e then Raise (QardioConnectionError "cannot connect" e)
  else Raise e.

(** The outcome of the session together with the final cells. *)
Definition _measure_async (progress : bool) (t : transport)
  : res (option reading) * cells :=
  match setup t with
  | Some e => (reraise e, fresh)
  | None =>
      let st := fst (wait_for progress fresh [] (inbound t)) in
      if event st then
        if aborted_flag st
        then (Raise (QardioMeasurementAborted (aborted_reason st)), st)
        else (Ret (result st), st)
      else (reraise TimeoutError, st)
  end.

(* ================================================================== *)
(** ** [_read_char_async] and [Plugin.measure] *)

(** [read] is what [c.read_gatt_char(uuid)] does. *)
Definition _read_char_async (read : res bytes) : res bytes :=
  match read with
  | Raise (BleakError msg) =>
      Raise (QardioConnectionError ("read failed: " ++ msg)%string (BleakError msg))
  | other => other
  end.

(** The returned [row]: ["timestamp"], the keys of [m] (none when the
    session returned the empty dictionary), ["battery"], ["conditions"]. *)
Record row : Type := mk_row {
  row_timestamp : string;
  row_m : option reading;
  row_battery : Z;
  row_conditions : string
}.

(** The surroundings of one call of [Plugin.measure]. *)
Record world : Type := mk_world {
  link : transport;
  battery_char : res bytes;
  now : string
}.

(** What a call of [Plugin.measure] does: the lines printed, the number of
    reads of the battery characteristic, and what it returns or raises. *)
Record observed : Type := mk_observed {
  printed : list string;
  battery_reads : nat;
  returned : res (option row)
}.

(** [m.get("status")] *)
Definition get_status (m : option reading) : option Z :=
  match m with
  | Some r => m_status r
  | None => None
  end.

Definition measure (progress : bool) (w : world) : observed :=
  match fst (_measure_async progress (link w)) with
  | Raise e =>
      match class_of e with
      | cQardioConnectionError | cQardioMeasurementAborted =>
          mk_observed [("[FAIL] " ++ str_exn e)%string] 0 (Ret None)
      | _ => mk_observed [] 0 (Raise e)
      end
  | Ret m =>
      match (raw <- _read_char_async (battery_char w) ;; getitem raw 0) with
      | Raise e => mk_observed [] 1 (Raise e)
      | Ret battery =>
          let conditions := decode_conditions (or_zero (get_status m)) in
          mk_observed [] 1
            (Ret (Some (mk_row (now w) m battery (join "|" conditions))))
      end
  end.

(* ================================================================== *)
(** ** Definitions that follow the specification's wording *)

(** The SFLOAT word the specification describes: bits 0-11 hold the
    mantissa and bits 12-15 the exponent, each in two's complement within
    its width. *)
Definition sfloat_word (mantissa exponent : Z) : Z :=
  Z.lor (mantissa mod 0x1000) (Z.shiftl (exponent mod 0x10) 12).

(** The reference encoder: that word as two little-endian bytes. *)
Definition low_byte (w : Z) : byte :=
  match Byte.of_N (Z.to_N (w mod 256)) with
  | Some b => b
  | None => x00
  end.

Definition sfloat_encode (mantissa exponent : Z) : bytes :=
  let w := sfloat_word mantissa exponent in
  [low_byte w; low_byte (Z.shiftr w 8)].

(** The number of bytes the flags byte calls for, in the specification's
    count: 1 + 6, two more for the pulse rate, two more for the status. *)
Definition flags_require (flags : Z) : nat :=
  (7 + (if Z.testbit flags 2 then 2 else 0)
     + (if Z.testbit flags 4 then 2 else 0))%nat.

(** The number of bytes the SFLOAT fields call for. *)
Definition sfloats_require (flags : Z) : nat :=
  (7 + (if Z.testbit flags 2 then 2 else 0))%nat.

(** The flags byte of a payload ([0] when there is none). *)
Definition flags_of (data : bytes) : Z :=
  match data with
  | b :: _ => u8 b
  | [] => 0
  end.

(** The SFLOAT stored at an offset, and the status stored at an offset. *)
Definition word_at (data : bytes) (off : nat) : Z :=
  u8 (nth off data x00) + 256 * u8 (nth (S off) data x00).

Definition sfloat_at (data : bytes) (off : nat) : Q :=
  times_pow10 (sfloat_mantissa (word_at data off))
              (sfloat_exponent (word_at data off)).

(** The offset of the status field: after the pulse rate when there is one. *)
Definition status_offset (flags : Z) : nat :=
  if Z.testbit flags 2 then 9%nat else 7%nat.

(** A notification that sets [event], whatever the cells hold. *)
Definition terminates (n : notification) : bool :=
  event (fst (dispatch false fresh n)).

(** A notification that writes [result] or [aborted]: a measurement
    payload that parses and either has the implicit-abort signature or
    has flags bit 4 set. *)
Definition writes (n : notification) : bool :=
  let st := fst (dispatch false fresh n) in
  aborted_flag st ||
  match result st with
  | Some _ => true
  | None => false
  end.

(* ================================================================== *)
(** ** The handlers with any progress callback *)

(** A callback: what calling it with [info] raises, [None] when it
    returns, given the calls made to it before, oldest first.  A callable
    that keeps state between its calls is a function of that history. *)
Definition callback : Type :=
  list progress_info -> progress_info -> option exn.

(** [if progress: progress(info)]: the cells with the call recorded, and
    what the call raised. *)
Definition report_with (progress : option callback) (info : progress_info)
    (st : cells) : cells * option exn :=
  match progress with
  | Some call =>
      (mk_cells (event st) (result st) (aborted_flag st) (aborted_reason st)
         (shown st ++ [info]),
       call (shown st) info)
  | None => (st, None)
  end.

(** [handle_measurement]: an exception of the callback leaves the handler
    where the callback is called, before [event.set()] and before
    [result.update(m)]. *)
Definition handle_measurement_with (progress : option callback) (st : cells)
    (data : bytes) : cells * res unit :=
  match parse_bp_notification data with
  | Raise e => (st, Raise e)
  | Ret m =>
      if implicit_abort data then
        let status := int_from_bytes_little (slice data 3 5) in
        let st := aborted_set "arm movement" st in
        match report_with progress (InfoPhase ABORTED) st with
        | (st, Some e) => (st, Raise e)
        | (st, None) =>
            let st := event_set st in
            (st, Raise (QardioMeasurementAborted "arm movement"))
        end
      else
        match report_with progress (InfoBp m) st with
        | (st, Some e) => (st, Raise e)
        | (st, None) =>
            if truthy (Z.land (m_flags m) 0x10)
            then (event_set (result_update m st), Ret tt)
            else (st, Ret tt)
        end
  end.

Definition handle_control_with (progress : option callback) (st : cells)
    (data : bytes) : cells * res unit :=
  match _decode_vendor data with
  | Raise e => (st, Raise e)
  | Ret None => (st, Ret tt)
  | Ret (Some phase) =>
      match report_with progress (InfoPhase phase) st with
      | (st, Some e) => (st, Raise e)
      | (st, None) =>
          let st := if Phase_eqb phase COMPLETED then event_set st else st in
          if Phase_eqb phase ABORTED || Phase_eqb phase ERROR
          then (event_set st,
                Raise (QardioMeasurementAborted (Phase_str phase)))
          else (st, Ret tt)
      end
  end.

Definition dispatch_with (progress : option callback) (st : cells)
    (n : notification) : cells * res unit :=
  match n with
  | OnMeasurement data => handle_measurement_with progress st data
  | OnControl data => handle_control_with progress st data
  end.

Fixpoint wait_for_with (progress : option callback) (st : cells)
    (unwound : list exn) (pending : list notification) : cells * list exn :=
  match pending with
  | [] => (st, unwound)
  | n :: rest =>
      match dispatch_with progress st n with
      | (st', Ret _) => wait_for_with progress st' unwound rest
      | (st', Raise e) => wait_for_with progress st' (unwound ++ [e]) rest
      end
  end.

Definition _measure_async_with (progress : option callback) (t : transport)
  : res (option reading) * cells :=
  match setup t with
  | Some e => (reraise e, fresh)
  | None =>
      let st := fst (wait_for_with progress fresh [] (inbound t)) in
      if event st then
        if aborted_flag st
        then (Raise (QardioMeasurementAborted (aborted_reason st)), st)
        else (Ret (result st), st)
      else (reraise TimeoutError, st)
  end.

(** The callback the boolean stands for: none, or one that returns. *)
Definition returning (progress : bool) : option callback :=
  if progress then Some (fun _ _ => None) else None.

From Stdlib Require Import Ascii Permutation Sorted.

(* ================================================================== *)
(** ** A Python [dict] with string keys *)

(** Keys are unique and keep the order in which they were inserted. *)
Module Dict.

Section Ops.

Variable V : Type.

Definition t : Type := list (string * V).

(** [d.get(k)] *)
Fixpoint get (d : t) (k : string) : option V :=
  match d with
  | [] => None
  | (k', v) :: rest => if String.eqb k k' then Some v else get rest k
  end.

(** [k in d] *)
Definition mem (d : t) (k : string) : bool :=
  match get d k with
  | Some _ => true
  | None => false
  end.

(** [d[k] = v]: an existing key keeps its place, a new one goes last. *)
Fixpoint set (d : t) (k : string) (v : V) : t :=
  match d with
  | [] => [(k, v)]
  | (k', v') :: rest =>
      if String.eqb k k' then (k, v) :: rest else (k', v') :: set rest k v
  end.

(** [del d[k]], for a key that is there. *)
Fixpoint del (d : t) (k : string) : t :=
  match d with
  | [] => []
  | (k', v') :: rest =>
      if String.eqb k k' then rest else (k', v') :: del rest k
  end.

(** [d.keys()] *)
Definition keys (d : t) : list string := map fst d.

End Ops.

Arguments get {V} d k.
Arguments mem {V} d k.
Arguments set {V} d k v.
Arguments del {V} d k.
Arguments keys {V} d.

End Dict.

(* ================================================================== *)
(** ** [Plugin]: [get_battery], [get_features], [get_device_info] *)

Definition BATT_UUID : string := "00002a19-0000-1000-8000-00805f9b34fb".
Definition BP_FEATURE_UUID : string := "00002a49-0000-1000-8000-00805f9b34fb".
Definition DI_MANUF_UUID : string := "00002a29-0000-1000-8000-00805f9b34fb".
Definition DI_MODEL_UUID : string := "00002a24-0000-1000-8000-00805f9b34fb".
Definition DI_SERIAL_UUID : string := "00002a25-0000-1000-8000-00805f9b34fb".
Definition DI_FWREV_UUID : string := "00002a26-0000-1000-8000-00805f9b34fb".
Definition DI_SWREV_UUID : string := "00002a28-0000-1000-8000-00805f9b34fb".
Definition DI_HWREV_UUID : string := "00002a27-0000-1000-8000-00805f9b34fb".
Definition DI_SYSTEMID_UUID : string := "00002a23-0000-1000-8000-00805f9b34fb".
Definition DI_PNPID_UUID : string := "00002a50-0000-1000-8000-00805f9b34fb".

(** [get_battery]; [read] is what reading the battery characteristic does. *)
Definition get_battery (read : res bytes) : res Z :=
  raw <- _read_char_async read ;;
  getitem raw 0.

Definition features_map : list (Z * string) :=
  [ (0, "Body Movement Detection");
    (1, "Cuff Fit Detection");
    (2, "Irregular Pulse Detection");
    (3, "Pulse Rate Range Detection");
    (4, "Measurement Position Detection") ].

(** [get_features] returns [{"bitmask": mask, "supported": supported}]. *)
Record features : Type := mk_features {
  bitmask : Z;
  supported : list string
}.

Definition get_features (read : res bytes) : res features :=
  raw <- _read_char_async read ;;
  let mask := int_from_bytes_little raw in
  let supported :=
    map snd
      (filter (fun entry => truthy (Z.land mask (Z.shiftl 1 (fst entry))))
         features_map) in
  Ret (mk_features mask supported).

(** [raw.hex()] *)
Definition hex_digit (n : Z) : string :=
  nth (Z.to_nat n)
    ["0"; "1"; "2"; "3"; "4"; "5"; "6"; "7";
     "8"; "9"; "a"; "b"; "c"; "d"; "e"; "f"] "0".

Definition hex (raw : bytes) : string :=
  String.concat EmptyString
    (map (fun b => (hex_digit (u8 b / 16) ++ hex_digit (u8 b mod 16))%string)
       raw).

Definition device_info_uuids : list string :=
  [ DI_MANUF_UUID; DI_MODEL_UUID; DI_SERIAL_UUID;
    DI_FWREV_UUID; DI_SWREV_UUID; DI_HWREV_UUID;
    DI_SYSTEMID_UUID; DI_PNPID_UUID ].

Section DeviceInfo.

(** [raw.decode().strip()], [None] when it raises. *)
Variable decode_strip : bytes -> option string.

(** What reading each characteristic does. *)
Variable chars : string -> res bytes.

(** The loop of [get_device_info] over the characteristics still to read,
    with the dictionary filled so far; the second component lists the
    characteristics read, in order. *)
Fixpoint read_info (uuids : list string) (info : Dict.t string)
  : res (Dict.t string) * list string :=
  match uuids with
  | [] => (Ret info, [])
  | uuid :: rest =>
      match _read_char_async (chars uuid) with
      | Raise e => (Raise e, [uuid])
      | Ret raw =>
          let text :=
            match decode_strip raw with
            | Some s => s
            | None => hex raw
            end in
          let (out, reads) := read_info rest (Dict.set info uuid text) in
          (out, uuid :: reads)
      end
  end.

Definition get_device_info : res (Dict.t string) * list string :=
  read_info device_info_uuids [].

End DeviceInfo.

(** The cells the handlers can reach from [fresh]: [aborted] is set only
    together with [event], only with the reason "arm movement" and only
    by a payload in [seen] that parsed and has the implicit-abort
    signature; [result] holds only a frame with flags bit 4 set that one
    of the measurement payloads in [seen] parsed to. *)
Definition reachable (seen : list notification) (st : cells) : Prop :=
  (aborted_flag st = true ->
   event st = true /\
   aborted_reason st = "arm movement" /\
   exists data : bytes,
     In (OnMeasurement data) seen /\
     implicit_abort data = true /\
     (9 <= len data)%nat) /\
  (forall m : reading,
      result st = Some m ->
      event st = true /\
      Z.testbit (m_flags m) 4 = true /\
      exists data : bytes,
        In (OnMeasurement data) seen /\ parse_bp_notification data = Ret m).

(** What the outcome of the session is read from: everything in the
    cells but the record of the calls to [progress]. *)
Definition core (st : cells) : bool * option reading * bool * string :=
  (event st, result st, aborted_flag st, aborted_reason st).

(* ================================================================== *)
(** ** [qcardio/cli.py]: the [dataset] command *)

Module Shell.

(** What a command of the shell can raise: [NameError] for a global name
    that [cli.py] uses but never binds, or what [state.save()] raised. *)
Inductive error : Type :=
| NameError (name : string)
| SaveFailed (e : exn).

(** [tokens.index(x)] for an [x] that is in [tokens]. *)
Fixpoint index (x : string) (tokens : list string) : option nat :=
  match tokens with
  | [] => None
  | y :: rest =>
      if String.eqb x y then Some 0%nat else option_map S (index x rest)
  end.

(** ["=" in cond] *)
Fixpoint has_equals (cond : string) : bool :=
  match cond with
  | EmptyString => false
  | String c rest => Ascii.eqb c "="%char || has_equals rest
  end.

(** [sorted(names)]: strings compare byte by byte, which for UTF-8 text
    is the order of the code points. *)
Fixpoint insert_sorted (x : string) (names : list string) : list string :=
  match names with
  | [] => [x]
  | y :: rest =>
      if String.leb x y then x :: names else y :: insert_sorted x rest
  end.

Definition sorted (names : list string) : list string :=
  fold_right insert_sorted [] names.

(** The order [sorted] sorts by. *)
Definition name_le (a b : string) : Prop := String.leb a b = true.

(** The leading part of [do_dataset] that looks for [--if <cond>]: the
    tokens without the filter, or the name whose lookup fails.  A
    condition with an ["="] reaches [re.compile], and [re] is not
    imported. *)
Definition parse_filter (tokens : list string) : string + list string :=
  match index "--if" tokens with
  | Some idx =>
      if (idx + 1 <? List.length tokens)%nat then
        let cond := nth (idx + 1) tokens EmptyString in
        let tokens' := firstn idx tokens ++ skipn (idx + 2) tokens in
        if has_equals cond then inl "re" else inr tokens'
      else inr tokens
  | None => inr tokens
  end.

Section Dataset.

(** The values kept in [state.data]. *)
Variable V : Type.

(** What [state.save()] does: [None] when it returns. *)
Variable disk : option exn.

(** What a command leaves behind: the lines printed, [state.data], the
    number of calls of [state.save()], and what it raised, if anything. *)
Record after : Type := mk_after {
  out : list string;
  data : Dict.t V;
  saves : nat;
  raised : option error
}.

(** [print(line); self.state.save()] *)
Definition print_and_save (line : string) (ds : Dict.t V) : after :=
  mk_after [line] ds 1 (option_map SaveFailed disk).

Definition quoted (name : string) : string :=
  ("'" ++ name ++ "'")%string.

(** [do_dataset], from the tokens that [shlex.split(arg)] returns. *)
Definition do_dataset (tokens : list string) (ds : Dict.t V) : after :=
  match parse_filter tokens with
  | inl name => mk_after [] ds 0 (Some (NameError name))
  | inr tokens =>
      match tokens with
      | [] => mk_after ["[FAIL] Missing operation"] ds 0 None
      | op :: args =>
          if String.eqb op "ls" then
            mk_after (sorted (Dict.keys ds)) ds 0 None
          else if String.eqb op "bless" then
            match args with
            | [name] => mk_after [] ds 0 (Some (NameError "copy"))
            | _ => mk_after ["[FAIL] Usage: dataset bless <name>"] ds 0 None
            end
          else if String.eqb op "rm" then
            match args with
            | [name] =>
                if Dict.mem ds name then
                  print_and_save
                    ("[OK] Removed dataset " ++ quoted name)%string
                    (Dict.del ds name)
                else
                  mk_after
                    [("[FAIL] Dataset " ++ quoted name ++ " not found")%string]
                    ds 0 None
            | _ => mk_after ["[FAIL] Usage: dataset rm <name>"] ds 0 None
            end
          else if String.eqb op "cp" then
            match args with
            | [src; dest] =>
                if Dict.mem ds src then
                  mk_after [] ds 0 (Some (NameError "copy"))
                else
                  mk_after
                    [("[FAIL] Source dataset " ++ quoted src ++
                      " not found")%string]
                    ds 0 None
            | _ =>
                mk_after
                  ["[FAIL] Usage: dataset cp <src> <dest> [--if <field>=<regexp>]"]
                  ds 0 None
            end
          else if String.eqb op "mv" then
            match args with
            | [old; new] =>
                match Dict.get ds old with
                | Some value =>
                    print_and_save
                      ("[OK] Renamed dataset " ++ quoted old ++ " to " ++
                       quoted new)%string
                      (Dict.set (Dict.del ds old) new value)
                | None =>
                    mk_after
                      [("[FAIL] Dataset " ++ quoted old ++
                        " not found")%string]
                      ds 0 None
                end
            | _ =>
                mk_after ["[FAIL] Usage: dataset mv <old> <new>"] ds 0 None
            end
          else
            mk_after
              [("[FAIL] Unknown operation " ++ quoted op)%string] ds 0 None
      end
  end.

End Dataset.

Arguments out {V} a.
Arguments data {V} a.
Arguments saves {V} a.
Arguments raised {V} a.

(** *** The [measure] command *)

(** The dictionary kept under ["_"]: its keys ["progress"], ["error"] and
    ["measurement"], each there or not. *)
Record slot : Type := mk_slot {
  s_progress : option (list progress_info);
  s_error : option string;
  s_measurement : option row
}.

(** The ten frames that [itertools.cycle] hands out in turn. *)
Definition spinner : list string :=
  ["⠋"; "⠙"; "⠹"; "⠸"; "⠼"; "⠴"; "⠦"; "⠧"; "⠇"; "⠏"].

(** [next(self._spinner)] after [pos] earlier calls. *)
Definition next_frame (pos : nat) : string :=
  nth (pos mod 10) spinner EmptyString.

Definition CR : string := String (ascii_of_nat 13) EmptyString.
Definition LF : string := String (ascii_of_nat 10) EmptyString.

(** [print(text)] writes the text and a line feed. *)
Definition line (text : string) : string := (text ++ LF)%string.

(** The table [msgs] of [_progress_print]; it has an entry for each of the
    six phases. *)
Definition msgs (phase : Phase) : string :=
  match phase with
  | INFLATING => "Inflating..."
  | MEASURING => "Measuring..."
  | DEFLATING => "Deflating..."
  | COMPLETED => "Completed"
  | ABORTED => "Aborted"
  | ERROR => "Error"
  end.

Section MeasureCommand.

(** ["%.0f" % x] *)
Variable fmt0 : Q -> string.

(** The lines ["  k: v"] for the items of a row, and [f"{result}"]. *)
Variable item_lines : row -> list string.
Variable repr_row : row -> string.

(** [_progress_print] for the arm plugin: what it writes, the spinner
    having been advanced [pos] times before. *)
Definition _progress_print (pos : nat) (info : progress_info) : string :=
  match info with
  | InfoBp m =>
      (CR ++ next_frame pos ++ " Measuring: " ++ fmt0 (m_systolic m) ++ "/" ++
       fmt0 (m_diastolic m) ++ " " ++ m_unit m ++ " ")%string
  | InfoPhase phase =>
      (CR ++ next_frame pos ++ " " ++ msgs phase)%string
  end.

(** What the callback writes over a session, call by call. *)
Fixpoint progress_output (pos : nat) (infos : list progress_info)
  : list string :=
  match infos with
  | [] => []
  | info :: rest => _progress_print pos info :: progress_output (S pos) rest
  end.

(** The surroundings of one [measure] command: the text [arg.strip()],
    the plugin's world, what the two calls of [state.save()] do and what
    appending to the output file does ([None] when it works), and the
    number of frames the spinner has handed out so far. *)
Record command : Type := mk_command {
  stripped : string;
  device : world;
  save1 : option exn;
  save2 : option exn;
  append : option exn;
  spun : nat
}.

(** What the command leaves behind: what went to standard output,
    [state.data], the number of calls of [state.save()], the text
    appended to the output file, the spinner, and what was raised. *)
Record measured : Type := mk_measured {
  stdout : list string;
  datasets : Dict.t slot;
  saved : nat;
  appended : option string;
  spun_after : nat;
  escaped : option exn
}.

Definition do_measure (c : command) (ds : Dict.t slot) : measured :=
  let ds := Dict.set ds "_" (mk_slot (Some []) None None) in
  match save1 c with
  | Some e => mk_measured [] ds 1 None (spun c) (Some e)
  | None =>
      let infos := shown (snd (_measure_async true (link (device c)))) in
      let obs := measure true (device c) in
      let pos := (spun c + List.length infos)%nat in
      let written :=
        progress_output (spun c) infos ++ map line (printed obs) in
      match returned obs with
      | Raise e =>
          let ds :=
            Dict.set ds "_" (mk_slot (Some []) (Some (str_exn e)) None) in
          match save2 c with
          | Some e2 => mk_measured written ds 2 None pos (Some e2)
          | None =>
              mk_measured
                (written ++ [line ("[FAIL] " ++ str_exn e)%string])
                ds 2 None pos None
          end
      | Ret None =>
          let ds :=
            Dict.set ds "_"
              (mk_slot (Some []) (Some "measurement aborted") None) in
          mk_measured written ds 2 None pos (save2 c)
      | Ret (Some result) =>
          let written :=
            written ++ line "Measurement result:" ::
                       map line (item_lines result) in
          let ds :=
            Dict.set ds "_" (mk_slot (Some []) None (Some result)) in
          match save2 c with
          | Some e2 => mk_measured written ds 2 None pos (Some e2)
          | None =>
              if String.eqb (stripped c) EmptyString then
                mk_measured written ds 2 None pos None
              else
                match append c with
                | None =>
                    mk_measured
                      (written ++
                       [line ("[OK] Saved to " ++ stripped c)%string])
                      ds 2 (Some (line (repr_row result))) pos None
                | Some e =>
                    mk_measured
                      (written ++
                       [line ("[FAIL] Failed to write to " ++ stripped c ++
                              ": " ++ str_exn e)%string])
                      ds 2 None pos None
                end
          end
      end
  end.

End MeasureCommand.

End Shell.

(* ================================================================== *)
(** ** [qcardio/ble.py]: [read_characteristic] *)

Module Ble.

(** Truth value of an optional string: [None] and the empty string are
    false. *)
Definition given (s : option string) : bool :=
  match s with
  | Some text => negb (String.eqb text EmptyString)
  | None => false
  end.

(** [x in names] *)
Definition listed (x : string) (names : list string) : bool :=
  existsb (String.eqb x) names.

(** What the radio does during one call: the adapters [_list_adapters]
    returns, whether the scanner finds the device when called with the
    keyword [adapter=...] and when called without it, and what connecting
    ([None]: without the [adapter] keyword) and reading gives. *)
Record radio : Type := mk_radio {
  adapters : list string;
  find_on : option string -> res bool;
  find_default : res bool;
  client_read : option string -> res bytes
}.

(** What a call does: the value it returns or raises, the adapter the
    first scan was asked to use, and the adapter keyword the client was
    opened with, when a client was opened at all. *)
Record reading_of : Type := mk_reading_of {
  value : res bytes;
  scanned_on : option string;
  opened_on : option (option string)
}.

(** The adapter fallback: [if adapter and adapter not in valid:
    adapter = valid[0] if valid else None]. *)
Definition fallback (adapter : option string) (valid : list string)
  : option string :=
  match adapter with
  | Some name =>
      if given adapter && negb (listed name valid)
      then match valid with
           | first :: _ => Some first
           | [] => None
           end
      else adapter
  | None => None
  end.

Definition read_characteristic (address : string) (adapter : option string)
    (r : radio) : reading_of :=
  let adapter := fallback adapter (adapters r) in
  let found :=
    match find_on r adapter with
    | Raise (BleakError _) => find_default r
    | other => other
    end in
  match found with
  | Raise e => mk_reading_of (Raise e) adapter None
  | Ret false =>
      mk_reading_of
        (Raise (BleakError ("Device " ++ address ++ " not found")%string))
        adapter None
  | Ret true =>
      let conn := if given adapter then adapter else None in
      mk_reading_of (client_read r conn) adapter (Some conn)
  end.

End Ble.

(* ================================================================== *)
(** ** Bytes, bits and words *)

Section Bits.

Lemma u8_range (b : byte) : 0 <= u8 b < 256.
Proof.
  unfold u8. pose proof (Byte.to_N_bounded b) as H.
  lia.
Qed.

Lemma land_pow2 (x n : Z) :
  0 <= n -> Z.land x (2 ^ n) = if Z.testbit x n then 2 ^ n else 0.
Proof.
  intros Hn. apply Z.bits_inj'. intros k Hk.
  rewrite Z.land_spec, Z.pow2_bits_eqb by assumption.
  destruct (Z.eqb_spec n k) as [->|Hne].
  - destruct (Z.testbit x k) eqn:E; simpl.
    + now rewrite Z.pow2_bits_true.
    + now rewrite Z.bits_0.
  - rewrite andb_false_r.
    destruct (Z.testbit x n).
    + now rewrite Z.pow2_bits_false.
    + now rewrite Z.bits_0.
Qed.

Lemma truthy_land_pow2 (x n : Z) :
  0 <= n -> truthy (Z.land x (2 ^ n)) = Z.testbit x n.
Proof.
  intros Hn. rewrite land_pow2 by assumption. unfold truthy.
  destruct (Z.testbit x n); [|reflexivity].
  assert (0 < 2 ^ n) by (apply Z.pow_pos_nonneg; lia).
  destruct (Z.eqb_spec (2 ^ n) 0); [lia|reflexivity].
Qed.

Lemma truthy_bit0 (x : Z) : truthy (Z.land x 0x01) = Z.testbit x 0.
Proof. exact (truthy_land_pow2 x 0 (Z.le_refl 0)). Qed.

Lemma truthy_bit2 (x : Z) : truthy (Z.land x 0x04) = Z.testbit x 2.
Proof. apply (truthy_land_pow2 x 2). lia. Qed.

Lemma truthy_bit4 (x : Z) : truthy (Z.land x 0x10) = Z.testbit x 4.
Proof. apply (truthy_land_pow2 x 4). lia. Qed.

(** Two fields that do not overlap: [lo | (hi << n)] is [lo + hi * 2^n]. *)
Lemma lor_shiftl_add (lo hi n : Z) :
  0 <= n -> 0 <= lo < 2 ^ n ->
  Z.lor lo (Z.shiftl hi n) = lo + hi * 2 ^ n.
Proof.
  intros Hn Hlo.
  assert (Hdisj : Z.land lo (Z.shiftl hi n) = 0).
  { apply Z.bits_inj'. intros k Hk.
    rewrite Z.land_spec, Z.bits_0.
    destruct (Z.lt_ge_cases k n) as [Hlt|Hge].
    - rewrite (Z.shiftl_spec_low hi n k Hlt). apply andb_false_r.
    - rewrite <- (Z.mod_small lo (2 ^ n)) by assumption.
      rewrite Z.mod_pow2_bits_high by lia. reflexivity. }
  rewrite <- Z.lxor_lor by assumption.
  rewrite <- Z.add_nocarry_lxor by assumption.
  rewrite Z.shiftl_mul_pow2 by assumption. reflexivity.
Qed.

Lemma word_of_bytes (b0 b1 : byte) :
  Z.lor (u8 b0) (Z.shiftl (u8 b1) 8) = u8 b0 + 256 * u8 b1.
Proof.
  pose proof (u8_range b0).
  rewrite (lor_shiftl_add (u8 b0) (u8 b1) 8) by (simpl; lia).
  change (2 ^ 8) with 256. lia.
Qed.

End Bits.

(* ================================================================== *)
(** ** The parser, field by field *)

Section Parser.

(** Case analysis on every length test in the goal. *)
Ltac by_length :=
  repeat match goal with
    | |- context [(?a <=? ?b)%nat] => destruct (Nat.leb_spec a b)
    | |- context [(?a <? ?b)%nat] => destruct (Nat.ltb_spec a b)
    end.

Lemma getitem_nth (raw : bytes) (i : nat) :
  getitem raw i =
  if (i <? len raw)%nat then Ret (u8 (nth i raw x00)) else Raise IndexError.
Proof.
  unfold getitem, len.
  destruct (Nat.ltb_spec i (List.length raw)) as [Hlt|Hge].
  - rewrite (nth_error_nth' raw x00 Hlt). reflexivity.
  - apply nth_error_None in Hge. rewrite Hge. reflexivity.
Qed.

Lemma len_slice2 (data : bytes) (off : nat) :
  len (slice data off (off + 2)) = Nat.min 2 (len data - off).
Proof.
  unfold slice, len. rewrite length_firstn, length_skipn.
  replace (off + 2 - off)%nat with 2%nat by lia. reflexivity.
Qed.

Lemma nth_slice2 (data : bytes) (off i : nat) :
  (i < 2)%nat ->
  nth i (slice data off (off + 2)) x00 = nth (off + i) data x00.
Proof.
  intros Hi. unfold slice.
  replace (off + 2 - off)%nat with 2%nat by lia.
  rewrite nth_firstn.
  destruct (Nat.ltb_spec i 2) as [_|Hge]; [|lia].
  apply nth_skipn.
Qed.

(** The SFLOAT read at an offset: present when two bytes are there. *)
Lemma parse_sfloat_slice (data : bytes) (off : nat) :
  parse_sfloat (slice data off (off + 2)) =
  if (off + 2 <=? len data)%nat then Ret (sfloat_at data off)
  else Raise IndexError.
Proof.
  unfold parse_sfloat. rewrite !getitem_nth, len_slice2.
  rewrite !nth_slice2 by lia.
  replace (off + 0)%nat with off by lia.
  replace (off + 1)%nat with (S off) by lia.
  destruct (Nat.leb_spec (off + 2) (len data)) as [Hle|Hgt].
  - destruct (Nat.ltb_spec 0 (Nat.min 2 (len data - off))); [|lia].
    destruct (Nat.ltb_spec 1 (Nat.min 2 (len data - off))); [|lia].
    unfold bind, sfloat_at, word_at. rewrite word_of_bytes. reflexivity.
  - destruct (Nat.ltb_spec 0 (Nat.min 2 (len data - off))); [|reflexivity].
    destruct (Nat.ltb_spec 1 (Nat.min 2 (len data - off))); [lia|reflexivity].
Qed.

Lemma status_slice (data : bytes) (off : nat) :
  (off + 2 <= len data)%nat ->
  int_from_bytes_little (slice data off (off + 2)) = word_at data off.
Proof.
  intros Hle.
  pose proof (len_slice2 data off) as Hlen.
  pose proof (nth_slice2 data off 0) as H0.
  pose proof (nth_slice2 data off 1) as H1.
  destruct (slice data off (off + 2)) as [|a [|b [|c rest]]];
    unfold len in *; cbn [List.length] in Hlen; try lia.
  simpl in H0, H1. rewrite Nat.add_0_r in H0. rewrite Nat.add_1_r in H1.
  unfold word_at.
  rewrite <- (H0 ltac:(lia)), <- (H1 ltac:(lia)).
  unfold int_from_bytes_little. lia.
Qed.

(** The status read is clipped to the bytes that remain. *)
Lemma status_slice_clipped (data : bytes) (off : nat) :
  (len data <= off + 2)%nat ->
  int_from_bytes_little (slice data off (off + 2)) =
  int_from_bytes_little (skipn off data).
Proof.
  intros Hle. unfold slice.
  replace (off + 2 - off)%nat with 2%nat by lia.
  rewrite firstn_all2; [reflexivity|].
  rewrite length_skipn. unfold len in Hle. lia.
Qed.

Lemma flags_of_getitem (data : bytes) :
  getitem data 0 =
  match data with
  | [] => Raise IndexError
  | _ :: _ => Ret (flags_of data)
  end.
Proof. destruct data; reflexivity. Qed.

(** The parser in closed form: it raises exactly for a payload too short
    for its SFLOAT fields, and otherwise returns the fields read at their
    fixed offsets. *)
Lemma parse_bp_notification_eq (data : bytes) :
  parse_bp_notification data =
  let flags := flags_of data in
  if (len data <? sfloats_require flags)%nat then Raise IndexError
  else Ret (mk_reading flags
              (if Z.testbit flags 0 then "kPa" else "mmHg")
              (sfloat_at data 1) (sfloat_at data 3) (sfloat_at data 5)
              (if Z.testbit flags 2 then Some (sfloat_at data 7) else None)
              (if Z.testbit flags 4
               then Some (int_from_bytes_little
                            (slice data (status_offset flags)
                                   (status_offset flags + 2)))
               else None)).
Proof.
  unfold parse_bp_notification. rewrite flags_of_getitem.
  destruct data as [|f rest]; [reflexivity|].
  set (data := f :: rest). cbv zeta.
  unfold bind at 1.
  rewrite truthy_bit0, truthy_bit2, truthy_bit4.
  rewrite !parse_sfloat_slice.
  unfold sfloats_require, status_offset.
  assert (Hlen : (1 <= len data)%nat) by (unfold len, data; simpl; lia).
  destruct (Z.testbit (flags_of data) 2) eqn:E2;
    by_length; cbn [bind fst snd]; solve [reflexivity | lia].
Qed.

End Parser.

(* ================================================================== *)
(** ** SFLOAT words *)

Section Sfloat.

Lemma u8_low_byte (w : Z) : u8 (low_byte w) = w mod 256.
Proof.
  unfold low_byte, u8.
  pose proof (Z.mod_pos_bound w 256 ltac:(lia)) as Hb.
  destruct (Byte.of_N (Z.to_N (w mod 256))) as [b|] eqn:E.
  - apply Byte.to_of_N in E. rewrite E. lia.
  - apply Byte.of_N_None_iff in E. lia.
Qed.

Lemma sfloat_word_split (mantissa exponent : Z) :
  sfloat_word mantissa exponent =
  mantissa mod 0x1000 + (exponent mod 0x10) * 0x1000.
Proof.
  unfold sfloat_word.
  pose proof (Z.mod_pos_bound mantissa 0x1000 ltac:(lia)).
  rewrite (lor_shiftl_add _ _ 12) by (simpl; lia).
  reflexivity.
Qed.

Lemma sfloat_word_range (mantissa exponent : Z) :
  0 <= sfloat_word mantissa exponent < 0x10000.
Proof.
  rewrite sfloat_word_split.
  pose proof (Z.mod_pos_bound mantissa 0x1000 ltac:(lia)).
  pose proof (Z.mod_pos_bound exponent 0x10 ltac:(lia)).
  lia.
Qed.

Lemma sfloat_mantissa_word (mantissa exponent : Z) :
  -2048 <= mantissa <= 2047 ->
  sfloat_mantissa (sfloat_word mantissa exponent) = mantissa.
Proof.
  intros Hm. unfold sfloat_mantissa.
  change 0x0FFF with (Z.ones 12). rewrite Z.land_ones by lia.
  rewrite sfloat_word_split. change (2 ^ 12) with 0x1000.
  rewrite Z.mod_add by lia. rewrite Z.mod_mod by lia.
  cbv zeta.
  destruct (Z.leb_spec 0x0800 (mantissa mod 0x1000)) as [Hneg|Hpos];
    Z.div_mod_to_equations; lia.
Qed.

Lemma sfloat_exponent_word (mantissa exponent : Z) :
  -8 <= exponent <= 7 ->
  sfloat_exponent (sfloat_word mantissa exponent) = exponent.
Proof.
  intros He. unfold sfloat_exponent.
  rewrite Z.shiftr_div_pow2 by lia.
  rewrite sfloat_word_split. change (2 ^ 12) with 0x1000.
  rewrite Z.div_add by lia.
  rewrite (Z.div_small (mantissa mod 0x1000))
    by (apply Z.mod_pos_bound; lia).
  rewrite Z.add_0_l.
  change 0x000F with (Z.ones 4). rewrite Z.land_ones by lia.
  change (2 ^ 4) with 0x10. rewrite Z.mod_mod by lia.
  cbv zeta.
  destruct (Z.leb_spec 0x0008 (exponent mod 0x10)) as [Hneg|Hpos];
    Z.div_mod_to_equations; lia.
Qed.

(** The two bytes of the encoder put the word back together. *)
Lemma sfloat_encode_word (mantissa exponent : Z) :
  word_at (sfloat_encode mantissa exponent) 0 = sfloat_word mantissa exponent.
Proof.
  unfold word_at, sfloat_encode. cbn [nth].
  rewrite !u8_low_byte.
  pose proof (sfloat_word_range mantissa exponent) as Hr.
  rewrite Z.shiftr_div_pow2 by lia. change (2 ^ 8) with 256.
  Z.div_mod_to_equations. lia.
Qed.

Lemma parse_sfloat_pair (b0 b1 : byte) (rest : bytes) :
  parse_sfloat (b0 :: b1 :: rest) =
  Ret (sfloat_at (b0 :: b1 :: rest) 0).
Proof.
  unfold parse_sfloat, getitem, sfloat_at, word_at. cbn [nth_error nth bind].
  rewrite word_of_bytes. reflexivity.
Qed.

End Sfloat.

(** C5. SFLOAT round trip: for a mantissa in [-2048, 2047] and an exponent
    in [-8, 7], decoding any two bytes whose little-endian word holds the
    mantissa in bits 0-11 and the exponent in bits 12-15 (two's complement
    within each width) gives [mantissa * 10^exponent]; in particular
    decoding the reference encoding of the pair gives that number. *)
Theorem C5_sfloat_round_trip (mantissa exponent : Z) :
  -2048 <= mantissa <= 2047 ->
  -8 <= exponent <= 7 ->
  (forall (b0 b1 : byte) (rest : bytes),
      u8 b0 + 256 * u8 b1 = sfloat_word mantissa exponent ->
      parse_sfloat (b0 :: b1 :: rest) =
      Ret (inject_Z mantissa * 10 ^ exponent)%Q) /\
  parse_sfloat (sfloat_encode mantissa exponent) =
  Ret (inject_Z mantissa * 10 ^ exponent)%Q.
Proof.
  intros Hm He.
  assert (Hany : forall (b0 b1 : byte) (rest : bytes),
             u8 b0 + 256 * u8 b1 = sfloat_word mantissa exponent ->
             parse_sfloat (b0 :: b1 :: rest) =
             Ret (inject_Z mantissa * 10 ^ exponent)%Q).
  { intros b0 b1 rest Hw. rewrite parse_sfloat_pair.
    unfold sfloat_at, word_at. cbn [nth]. rewrite Hw.
    rewrite sfloat_mantissa_word, sfloat_exponent_word by assumption.
    reflexivity. }
  split; [exact Hany|].
  unfold sfloat_encode. apply Hany.
  exact (sfloat_encode_word mantissa exponent).
Qed.

Lemma C5_sfloat_round_trip_witness :
  parse_sfloat (sfloat_encode (-1205) (-1)) =
  Ret (inject_Z (-1205) * 10 ^ (-1))%Q.
Proof.
  apply (C5_sfloat_round_trip (-1205) (-1)); lia.
Defined.

(* ================================================================== *)
(** ** The measurement frame parser *)

(** C4. A frame long enough for its flags parses to: the flags read at
    offset 0; the unit kPa when flags bit 0 is set and mmHg otherwise; the
    systolic, diastolic and mean arterial pressure decoded as the SFLOATs
    at offsets 1, 3 and 5; the pulse rate, the SFLOAT at offset 7, exactly
    when flags bit 2 is set; the status, the two-byte little-endian
    unsigned integer that follows, exactly when flags bit 4 is set. *)
Theorem C4_parse_well_formed_frame (data : bytes) :
  (flags_require (flags_of data) <= len data)%nat ->
  let flags := flags_of data in
  parse_bp_notification data =
  Ret {| m_flags := flags;
         m_unit := if Z.testbit flags 0 then "kPa" else "mmHg";
         m_systolic := sfloat_at data 1;
         m_diastolic := sfloat_at data 3;
         m_map := sfloat_at data 5;
         m_pulse :=
           if Z.testbit flags 2 then Some (sfloat_at data 7) else None;
         m_status :=
           if Z.testbit flags 4
           then Some (word_at data (status_offset flags))
           else None |}.
Proof.
  intros Hlen flags. rewrite parse_bp_notification_eq. cbv zeta.
  fold flags. unfold flags_require in Hlen. fold flags in Hlen.
  unfold sfloats_require.
  destruct (Nat.ltb_spec (len data)
              (7 + (if Z.testbit flags 2 then 2 else 0))) as [Hshort|_];
    [lia|].
  destruct (Z.testbit flags 4) eqn:E4; [|reflexivity].
  rewrite status_slice; [reflexivity|].
  unfold status_offset. destruct (Z.testbit flags 2); lia.
Qed.

Lemma C4_parse_well_formed_frame_witness :
  parse_bp_notification
    [x15; x78; x00; x50; x00; x5d; x00; x48; x00; x0b; x00] =
  Ret {| m_flags := 0x15;
         m_unit := "kPa";
         m_systolic := 120;
         m_diastolic := 80;
         m_map := 93;
         m_pulse := Some 72%Q;
         m_status := Some 11 |}.
Proof.
  apply (C4_parse_well_formed_frame
           [x15; x78; x00; x50; x00; x5d; x00; x48; x00; x0b; x00]).
  vm_compute. lia.
Defined.

(** C2 as stated fails: a seven-byte frame whose flags set bit 4 is two
    bytes short of what its flags call for, and it parses, with status 0. *)
Lemma C2_counterexample :
  let data := [x10; x78; x00; x50; x00; x5d; x00] in
  (len data < flags_require (flags_of data))%nat /\
  Z.testbit (flags_of data) 4 = true /\
  parse_bp_notification data =
  Ret {| m_flags := 0x10;
         m_unit := "mmHg";
         m_systolic := 120;
         m_diastolic := 80;
         m_map := 93;
         m_pulse := None;
         m_status := Some 0 |}.
Proof.
  cbv zeta. split; [vm_compute; lia|]. split; reflexivity.
Qed.

(** C2, amended. The parser raises exactly when the payload holds fewer
    bytes than its SFLOAT fields take (1 + 6, and 2 more when flags bit 2
    is set), and what it raises is [IndexError]; the status that flags
    bit 4 calls for is never missed: a payload that ends before or inside
    the status field parses, the status being the little-endian value of
    the bytes that remain (0 when none does). *)
Theorem C2_parse_fails_iff_sfloats_missing (data : bytes) :
  (raises (parse_bp_notification data) = true <->
   (len data < sfloats_require (flags_of data))%nat) /\
  (raises (parse_bp_notification data) = true ->
   parse_bp_notification data = Raise IndexError) /\
  ((sfloats_require (flags_of data) <= len data)%nat ->
   (len data < flags_require (flags_of data))%nat ->
   exists m,
     parse_bp_notification data = Ret m /\
     m_status m =
     Some (int_from_bytes_little
             (skipn (status_offset (flags_of data)) data))).
Proof.
  rewrite parse_bp_notification_eq. cbv zeta.
  destruct (Nat.ltb_spec (len data) (sfloats_require (flags_of data)))
    as [Hshort|Hlong].
  - repeat split; intros; try reflexivity; try assumption; lia.
  - split; [|split].
    + split; [discriminate|lia].
    + discriminate.
    + intros _ Hmiss. eexists. split; [reflexivity|]. cbn [m_status].
      unfold flags_require, sfloats_require, status_offset in *.
      destruct (Z.testbit (flags_of data) 4); [|lia].
      f_equal. apply status_slice_clipped.
      destruct (Z.testbit (flags_of data) 2); lia.
Qed.

Lemma C2_parse_fails_iff_sfloats_missing_witness :
  exists m,
    parse_bp_notification [x10; x78; x00; x50; x00; x5d; x00; x07] = Ret m /\
    m_status m = Some 7.
Proof.
  destruct (C2_parse_fails_iff_sfloats_missing
              [x10; x78; x00; x50; x00; x5d; x00; x07]) as [_ [_ H]].
  apply H; vm_compute; lia.
Defined.

(* ================================================================== *)
(** ** The condition decoder *)

(** C9. The condition decoder lists "body_movement" for status bit 0,
    "cuff_too_loose" for bit 1, "irregular_pulse" for bit 2 and
    "pulse_rate_out_of_range" for bit 3, in ascending bit order and nothing
    else; status 0 gives the empty list, status 0b1011 gives body_movement,
    cuff_too_loose, pulse_rate_out_of_range in that order; it is defined on
    every integer, and an absent status, which [Plugin.measure] passes on
    as [status or 0], gives the empty list. *)
Theorem C9_decode_conditions :
  (forall status : Z,
      decode_conditions status =
      (if Z.testbit status 0 then ["body_movement"] else []) ++
      (if Z.testbit status 1 then ["cuff_too_loose"] else []) ++
      (if Z.testbit status 2 then ["irregular_pulse"] else []) ++
      (if Z.testbit status 3 then ["pulse_rate_out_of_range"] else [])) /\
  decode_conditions 0 = [] /\
  decode_conditions 11 =
    ["body_movement"; "cuff_too_loose"; "pulse_rate_out_of_range"] /\
  decode_conditions (or_zero None) = [] /\
  decode_conditions (or_zero (get_status None)) = [].
Proof.
  split; [|repeat split; reflexivity].
  intros status. unfold decode_conditions, mapping.
  cbn [filter fst].
  change (Z.shiftl 1 0) with (2 ^ 0).
  change (Z.shiftl 1 1) with (2 ^ 1).
  change (Z.shiftl 1 2) with (2 ^ 2).
  change (Z.shiftl 1 3) with (2 ^ 3).
  rewrite !truthy_land_pow2 by lia.
  destruct (Z.testbit status 0), (Z.testbit status 1),
    (Z.testbit status 2), (Z.testbit status 3); reflexivity.
Qed.

(* ================================================================== *)
(** ** The phase decoder *)

Section Vendor.

Lemma Phase_of_value_member (p : Phase) :
  Phase_of_value (Phase_value p) = Ret p.
Proof. destruct p; reflexivity. Qed.

Lemma Phase_of_value_cases (v : Z) :
  (exists p, v = Phase_value p /\ Phase_of_value v = Ret p) \/
  (~ 1 <= v <= 6) /\ Phase_of_value v = Raise (ValueError v).
Proof.
  unfold Phase_of_value.
  destruct (Z.eqb_spec v 1); [left; exists INFLATING; auto|].
  destruct (Z.eqb_spec v 2); [left; exists MEASURING; auto|].
  destruct (Z.eqb_spec v 3); [left; exists DEFLATING; auto|].
  destruct (Z.eqb_spec v 4); [left; exists COMPLETED; auto|].
  destruct (Z.eqb_spec v 5); [left; exists ABORTED; auto|].
  destruct (Z.eqb_spec v 6); [left; exists ERROR; auto|].
  right. split; [lia|reflexivity].
Qed.

(** The decoder by the shape of the payload. *)
Lemma decode_vendor_shape (raw : bytes) :
  _decode_vendor raw =
  match raw with
  | [b0; b1] =>
      if u8 b0 =? 0xF2
      then p <- Phase_of_value (u8 b1) ;; Ret (Some p)
      else Ret None
  | _ => Ret None
  end.
Proof.
  destruct raw as [|b0 [|b1 [|b2 rest]]]; reflexivity.
Qed.

(** A phase comes out only of a two-byte payload that starts with 0xF2 and
    ends with the code of that phase. *)
Lemma decode_vendor_phase (raw : bytes) (p : Phase) :
  _decode_vendor raw = Ret (Some p) <->
  exists b0 b1, raw = [b0; b1] /\ u8 b0 = 0xF2 /\ u8 b1 = Phase_value p.
Proof.
  rewrite decode_vendor_shape. split.
  - destruct raw as [|b0 [|b1 [|b2 rest]]]; try discriminate.
    destruct (Z.eqb_spec (u8 b0) 0xF2) as [H0|]; [|discriminate].
    destruct (Phase_of_value_cases (u8 b1)) as [[q [Hq Hv]]|[_ Hv]];
      rewrite Hv; cbn [bind]; [|discriminate].
    intros [= ->]. exists b0, b1. auto.
  - intros [b0 [b1 [-> [H0 H1]]]].
    rewrite H0, H1, Phase_of_value_member. reflexivity.
Qed.

(** The decoder raises exactly on a two-byte payload that starts with 0xF2
    and ends with a byte that is no phase code. *)
Lemma decode_vendor_raises (raw : bytes) :
  raises (_decode_vendor raw) = true <->
  exists b0 b1, raw = [b0; b1] /\ u8 b0 = 0xF2 /\ ~ 1 <= u8 b1 <= 6.
Proof.
  rewrite decode_vendor_shape. split.
  - destruct raw as [|b0 [|b1 [|b2 rest]]]; try discriminate.
    destruct (Z.eqb_spec (u8 b0) 0xF2) as [H0|]; [|discriminate].
    destruct (Phase_of_value_cases (u8 b1)) as [[q [Hq Hv]]|[Hout Hv]];
      rewrite Hv; cbn [bind raises]; [discriminate|].
    intros _. exists b0, b1. auto.
  - intros [b0 [b1 [-> [H0 Hout]]]]. rewrite H0. cbn [Z.eqb Pos.eqb].
    destruct (Phase_of_value_cases (u8 b1)) as [[q [Hq Hv]]|[_ Hv]].
    + exfalso. apply Hout. rewrite Hq. destruct q; simpl; lia.
    + rewrite Hv. reflexivity.
Qed.

End Vendor.

(** C3. On the payload [0xF2, 0x09] the phase decoder does not return
    "no phase": [Phase(9)] raises [ValueError], and the control handler
    lets it through to its caller. *)
Theorem C3_unknown_phase_code_raises :
  _decode_vendor [xf2; x09] = Raise (ValueError 9) /\
  handle_control true fresh [xf2; x09] = (fresh, Raise (ValueError 9)).
Proof. split; reflexivity. Qed.

(* ================================================================== *)
(** ** The handlers *)

Section Handlers.

Variable progress : bool.

Lemma event_report (info : progress_info) (st : cells) :
  event (report progress info st) = event st.
Proof. unfold report. destruct progress; reflexivity. Qed.

Lemma result_report (info : progress_info) (st : cells) :
  result (report progress info st) = result st.
Proof. unfold report. destruct progress; reflexivity. Qed.

Lemma aborted_flag_report (info : progress_info) (st : cells) :
  aborted_flag (report progress info st) = aborted_flag st.
Proof. unfold report. destruct progress; reflexivity. Qed.

Lemma aborted_reason_report (info : progress_info) (st : cells) :
  aborted_reason (report progress info st) = aborted_reason st.
Proof. unfold report. destruct progress; reflexivity. Qed.

(** The implicit-abort test looks at the flags byte, which must be 0x04. *)
Lemma implicit_abort_flags (data : bytes) :
  implicit_abort data = true -> flags_of data = 0x04 /\ (5 <= len data)%nat.
Proof.
  unfold implicit_abort. rewrite flags_of_getitem.
  destruct data as [|f rest]; [discriminate|].
  intros H. apply andb_prop in H as [Hlen H].
  apply Nat.leb_le in Hlen. split; [|exact Hlen].
  destruct (getitem (f :: rest) 1); [|discriminate].
  apply andb_prop in H as [H _]. now apply Z.eqb_eq in H.
Qed.

(** With 0x04 as its flags a payload must carry the pulse rate: the parse
    that precedes the test raises on anything under nine bytes. *)
Lemma implicit_abort_parse (data : bytes) :
  implicit_abort data = true ->
  raises (parse_bp_notification data) = (len data <? 9)%nat.
Proof.
  intros H. apply implicit_abort_flags in H as [Hf _].
  rewrite parse_bp_notification_eq. cbv zeta. rewrite Hf.
  change (sfloats_require 4) with 9%nat.
  destruct (len data <? 9)%nat; reflexivity.
Qed.

(** When the parse succeeds, the implicit abort does what its branch says. *)
Lemma handle_measurement_abort (st : cells) (data : bytes) :
  implicit_abort data = true ->
  (9 <= len data)%nat ->
  handle_measurement progress st data =
  (event_set (report progress (InfoPhase ABORTED)
                (aborted_set "arm movement" st)),
   Raise (QardioMeasurementAborted "arm movement")).
Proof.
  intros Hab Hlen. unfold handle_measurement.
  pose proof (implicit_abort_parse data Hab) as Hp.
  destruct (Nat.ltb_spec (len data) 9); [lia|].
  destruct (parse_bp_notification data); [|discriminate].
  rewrite Hab. reflexivity.
Qed.

(** A parsed frame whose flags set bit 4 is captured and ends the wait. *)
Lemma handle_measurement_final (st : cells) (data : bytes) (m : reading) :
  parse_bp_notification data = Ret m ->
  Z.testbit (m_flags m) 4 = true ->
  handle_measurement progress st data =
  (event_set (result_update m (report progress (InfoBp m) st)), Ret tt).
Proof.
  intros Hp H4. unfold handle_measurement. rewrite Hp.
  destruct (implicit_abort data) eqn:Hab.
  - apply implicit_abort_flags in Hab as [Hf _].
    rewrite parse_bp_notification_eq in Hp. cbv zeta in Hp.
    destruct (len data <? sfloats_require (flags_of data))%nat;
      [discriminate|].
    injection Hp as <-. cbn [m_flags] in H4. rewrite Hf in H4.
    discriminate.
  - rewrite truthy_bit4, H4. reflexivity.
Qed.

Lemma handle_control_phase (st : cells) (data : bytes) (phase : Phase) :
  _decode_vendor data = Ret (Some phase) ->
  handle_control progress st data =
  let st1 := report progress (InfoPhase phase) st in
  match phase with
  | COMPLETED => (event_set st1, Ret tt)
  | ABORTED | ERROR =>
      (event_set st1, Raise (QardioMeasurementAborted (Phase_str phase)))
  | _ => (st1, Ret tt)
  end.
Proof.
  intros Hd. unfold handle_control. rewrite Hd.
  destruct phase; reflexivity.
Qed.

(** Whether a notification sets [event] depends on the notification
    alone. *)
Lemma dispatch_event (st : cells) (n : notification) :
  event (fst (dispatch progress st n)) = event st || terminates n.
Proof.
  unfold terminates.
  destruct n as [data|data]; unfold dispatch.
  - unfold handle_measurement.
    destruct (parse_bp_notification data) as [m|e];
      [|cbn; now rewrite orb_false_r].
    destruct (implicit_abort data); [cbn; now rewrite orb_true_r|].
    destruct (truthy (Z.land (m_flags m) 16));
      cbn; rewrite ?event_report, ?orb_true_r, ?orb_false_r; reflexivity.
  - unfold handle_control.
    destruct (_decode_vendor data) as [[phase|]|e];
      [|cbn; now rewrite orb_false_r..].
    destruct phase; cbn; rewrite ?event_report, ?orb_true_r, ?orb_false_r;
      reflexivity.
Qed.

(** A notification that does not set [event] leaves [result] and
    [aborted] as they were. *)
Lemma dispatch_quiet (st : cells) (n : notification) :
  terminates n = false ->
  let st' := fst (dispatch progress st n) in
  result st' = result st /\
  aborted_flag st' = aborted_flag st /\
  aborted_reason st' = aborted_reason st.
Proof.
  unfold terminates.
  destruct n as [data|data]; unfold dispatch.
  - unfold handle_measurement.
    destruct (parse_bp_notification data) as [m|e]; [|cbn; auto].
    destruct (implicit_abort data); [cbn; discriminate|].
    destruct (truthy (Z.land (m_flags m) 16)); [cbn; discriminate|].
    cbn. intros _.
    rewrite result_report, aborted_flag_report, aborted_reason_report. auto.
  - unfold handle_control.
    destruct (_decode_vendor data) as [[phase|]|e]; [|cbn; auto..].
    destruct phase; cbn; try discriminate; intros _;
      rewrite result_report, aborted_flag_report, aborted_reason_report;
      auto.
Qed.

(** A notification that writes neither [result] nor [aborted] leaves
    them as they were, whatever [event] holds. *)
Lemma dispatch_silent (st : cells) (n : notification) :
  writes n = false ->
  let st' := fst (dispatch progress st n) in
  result st' = result st /\
  aborted_flag st' = aborted_flag st /\
  aborted_reason st' = aborted_reason st.
Proof.
  unfold writes.
  destruct n as [data|data]; unfold dispatch.
  - unfold handle_measurement.
    destruct (parse_bp_notification data) as [m|e]; [|cbn; auto].
    destruct (implicit_abort data); [cbn; discriminate|].
    destruct (truthy (Z.land (m_flags m) 16)); [cbn; discriminate|].
    cbn. intros _.
    rewrite result_report, aborted_flag_report, aborted_reason_report. auto.
  - unfold handle_control. intros _.
    destruct (_decode_vendor data) as [[phase|]|e]; [|cbn; auto..].
    destruct phase; cbn;
      rewrite result_report, aborted_flag_report, aborted_reason_report;
      auto.
Qed.

(** Once set, [aborted] stays set, with its one reason. *)
Lemma dispatch_aborted_sticky (st : cells) (n : notification) :
  aborted_flag st = true ->
  aborted_reason st = "arm movement" ->
  aborted_flag (fst (dispatch progress st n)) = true /\
  aborted_reason (fst (dispatch progress st n)) = "arm movement".
Proof.
  intros Hf Hr. destruct n as [data|data]; unfold dispatch.
  - unfold handle_measurement.
    destruct (parse_bp_notification data) as [m|e]; [|cbn; auto].
    destruct (implicit_abort data).
    + cbn. rewrite aborted_flag_report, aborted_reason_report. auto.
    + destruct (truthy (Z.land (m_flags m) 16)); cbn;
        rewrite aborted_flag_report, aborted_reason_report; auto.
  - unfold handle_control.
    destruct (_decode_vendor data) as [[phase|]|e]; [|cbn; auto..].
    destruct phase; cbn;
      rewrite aborted_flag_report, aborted_reason_report; auto.
Qed.

(** [event] is set at the end exactly when it was set before or some
    notification that sets it came in. *)
Lemma wait_for_event (pending : list notification) :
  forall (st : cells) (unwound : list exn),
    event (fst (wait_for progress st unwound pending)) =
    event st || existsb terminates pending.
Proof.
  induction pending as [|n rest IH]; intros st unwound.
  - cbn [wait_for existsb fst]. now rewrite orb_false_r.
  - cbn [wait_for existsb].
    pose proof (dispatch_event st n) as Hd.
    destruct (dispatch progress st n) as [st' [u|e]]; cbn [fst] in Hd;
      rewrite IH, Hd, orb_assoc; reflexivity.
Qed.

(** Notifications that do not set [event] are passed over: the cells
    that follow them differ in [shown] only. *)
Lemma wait_for_quiet (earlier : list notification) :
  forall (st : cells) (unwound : list exn) (rest : list notification),
    event st = false ->
    existsb terminates earlier = false ->
    exists st' unwound',
      wait_for progress st unwound (earlier ++ rest) =
      wait_for progress st' unwound' rest /\
      event st' = false /\
      result st' = result st /\
      aborted_flag st' = aborted_flag st /\
      aborted_reason st' = aborted_reason st.
Proof.
  induction earlier as [|n earlier IH]; intros st unwound rest Hev Hq.
  - exists st, unwound. cbn. auto.
  - cbn [existsb] in Hq. apply orb_false_elim in Hq as [Hn Hq].
    cbn [app wait_for].
    pose proof (dispatch_event st n) as Hd. rewrite Hev, Hn in Hd.
    pose proof (dispatch_quiet st n Hn) as Hk. cbv zeta in Hk.
    destruct (dispatch progress st n) as [st1 [u|e]]; cbn [fst] in Hd, Hk;
      destruct Hk as [Hr [Hf Ha]].
    + destruct (IH st1 unwound rest Hd Hq) as [st' [u' [Hw [He [Hr' [Hf' Ha']]]]]].
      exists st', u'. rewrite Hw. repeat split; congruence.
    + destruct (IH st1 (unwound ++ [e]) rest Hd Hq)
        as [st' [u' [Hw [He [Hr' [Hf' Ha']]]]]].
      exists st', u'. rewrite Hw. repeat split; congruence.
Qed.

(** Notifications that write neither [result] nor [aborted] leave both
    as they were. *)
Lemma wait_for_silent (later : list notification) :
  forall (st : cells) (unwound : list exn),
    existsb writes later = false ->
    let st' := fst (wait_for progress st unwound later) in
    result st' = result st /\
    aborted_flag st' = aborted_flag st /\
    aborted_reason st' = aborted_reason st.
Proof.
  induction later as [|n later IH]; intros st unwound Hq; cbv zeta.
  - cbn. auto.
  - cbn [existsb] in Hq. apply orb_false_elim in Hq as [Hn Hq].
    cbn [wait_for].
    pose proof (dispatch_silent st n Hn) as Hk. cbv zeta in Hk.
    destruct (dispatch progress st n) as [st1 [u|e]]; cbn [fst] in Hk;
      destruct Hk as [Hr [Hf Ha]].
    + destruct (IH st1 unwound Hq) as [Hr' [Hf' Ha']].
      repeat split; congruence.
    + destruct (IH st1 (unwound ++ [e]) Hq) as [Hr' [Hf' Ha']].
      repeat split; congruence.
Qed.

Lemma wait_for_aborted_sticky (later : list notification) :
  forall (st : cells) (unwound : list exn),
    aborted_flag st = true ->
    aborted_reason st = "arm movement" ->
    aborted_flag (fst (wait_for progress st unwound later)) = true /\
    aborted_reason (fst (wait_for progress st unwound later)) =
    "arm movement".
Proof.
  induction later as [|n later IH]; intros st unwound Hf Hr.
  - cbn. auto.
  - cbn [wait_for].
    pose proof (dispatch_aborted_sticky st n Hf Hr) as [Hf' Hr'].
    destruct (dispatch progress st n) as [st1 [u|e]]; cbn [fst] in Hf', Hr';
      now apply IH.
Qed.

End Handlers.

(* ================================================================== *)
(** ** The implicit abort *)

(** Under nine bytes the parse that the handler starts with raises, and the
    implicit-abort branch is not reached. *)
Lemma handle_measurement_abort_short (progress : bool) (st : cells)
    (data : bytes) :
  implicit_abort data = true ->
  (len data < 9)%nat ->
  handle_measurement progress st data = (st, Raise IndexError).
Proof.
  intros Hab Hlen. unfold handle_measurement.
  pose proof (implicit_abort_flags data Hab) as [Hf _].
  rewrite parse_bp_notification_eq. cbv zeta. rewrite Hf.
  change (sfloats_require 4) with 9%nat.
  destruct (Nat.ltb_spec (len data) 9); [reflexivity|lia].
Qed.

(** From nine bytes on, the first implicit abort to come in ends the
    session with the abort "arm movement", whatever is handled after it. *)
Lemma implicit_abort_session (progress : bool)
    (earlier later : list notification) (data : bytes) :
  existsb terminates earlier = false ->
  implicit_abort data = true ->
  (9 <= len data)%nat ->
  fst (_measure_async progress
         (mk_transport None (earlier ++ OnMeasurement data :: later))) =
  Raise (QardioMeasurementAborted "arm movement").
Proof.
  intros Hq Hab Hlen. unfold _measure_async. cbn [setup inbound].
  destruct (wait_for_quiet progress earlier fresh []
              (OnMeasurement data :: later) eq_refl Hq)
    as [st' [u' [Hw [Hev _]]]].
  rewrite Hw.
  pose proof (wait_for_event progress (OnMeasurement data :: later) st' u')
    as He.
  cbn [wait_for dispatch] in *.
  rewrite (handle_measurement_abort progress st' data Hab Hlen) in *.
  set (st1 := event_set (report progress (InfoPhase ABORTED)
                           (aborted_set "arm movement" st'))) in *.
  assert (Hf1 : aborted_flag st1 = true)
    by (unfold st1, event_set; cbn [aborted_flag];
        now rewrite aborted_flag_report).
  assert (Hr1 : aborted_reason st1 = "arm movement")
    by (unfold st1, event_set; cbn [aborted_reason];
        now rewrite aborted_reason_report).
  destruct (wait_for_aborted_sticky progress later st1
              (u' ++ [QardioMeasurementAborted "arm movement"]) Hf1 Hr1)
    as [Hf Hr].
  assert (Hterm : terminates (OnMeasurement data) = true).
  { unfold terminates. cbn [dispatch].
    now rewrite (handle_measurement_abort false fresh data Hab Hlen). }
  cbn [existsb] in He. rewrite Hterm, orb_true_r in He. cbn [orb] in He.
  rewrite He, Hf, Hr. reflexivity.
Qed.

(** C1. The five-byte payload [0x04, 0xFF, 0x00, 0x01, 0x00] has the
    implicit-abort signature, yet handling it raises [IndexError] out of
    the frame parse, leaves [aborted] and [event] untouched, and a session
    that receives nothing else times out. *)
Theorem C1_implicit_abort_short_payload :
  let data := [x04; xff; x00; x01; x00] in
  implicit_abort data = true /\
  handle_measurement true fresh data = (fresh, Raise IndexError) /\
  _measure_async true (mk_transport None [OnMeasurement data]) =
  (Raise (QardioConnectionError "cannot connect" TimeoutError), fresh).
Proof. cbv zeta. repeat split; reflexivity. Qed.

(* ================================================================== *)
(** ** The session *)

Lemma session_quiet (progress : bool) (t : transport) :
  setup t = None ->
  existsb terminates (inbound t) = false ->
  fst (_measure_async progress t) =
  Raise (QardioConnectionError "cannot connect" TimeoutError).
Proof.
  intros Hs Hq. unfold _measure_async. rewrite Hs.
  pose proof (wait_for_event progress (inbound t) fresh []) as He.
  rewrite Hq in He. cbn [fresh event orb] in He.
  rewrite He. reflexivity.
Qed.

Lemma session_setup_failure (progress : bool) (e : exn)
    (pending : list notification) :
  caught e = true ->
  fst (_measure_async progress (mk_transport (Some e) pending)) =
  Raise (QardioConnectionError "cannot connect" e).
Proof.
  intros Hc. unfold _measure_async, reraise. cbn [setup fst].
  rewrite Hc. reflexivity.
Qed.

(** Whatever the session raises after a transport failure that the
    [except] clause names, or after none, is one of the module's two
    exception classes. *)
Lemma session_failure_class (progress : bool) (t : transport) (e : exn) :
  match setup t with Some e0 => caught e0 = true | None => True end ->
  fst (_measure_async progress t) = Raise e ->
  class_of e = cQardioConnectionError \/
  class_of e = cQardioMeasurementAborted.
Proof.
  unfold _measure_async, reraise.
  destruct (setup t) as [e0|].
  - intros Hc. rewrite Hc. cbn [fst]. intros [= <-]. left. reflexivity.
  - intros _.
    destruct (event (fst (wait_for progress fresh [] (inbound t)))).
    + destruct (aborted_flag (fst (wait_for progress fresh [] (inbound t))));
        cbn [fst]; [intros [= <-]; right; reflexivity|discriminate].
    + cbn [fst caught]. intros [= <-]. left. reflexivity.
Qed.

(** C6 as stated fails: a session that times out and a session whose
    connection fails raise the same class with the same message, and the
    caller of [Plugin.measure] sees the same printed line and [None]. *)
Lemma C6_counterexample :
  let silent := mk_transport None [] in
  let broken := mk_transport (Some (BleakError "device not found")) [] in
  fst (_measure_async true silent) =
    Raise (QardioConnectionError "cannot connect" TimeoutError) /\
  fst (_measure_async true broken) =
    Raise (QardioConnectionError "cannot connect"
             (BleakError "device not found")) /\
  class_of (QardioConnectionError "cannot connect" TimeoutError) =
  class_of (QardioConnectionError "cannot connect"
              (BleakError "device not found")) /\
  measure true (mk_world silent (Ret [x50]) "2025-01-01 12:00:00") =
  measure true (mk_world broken (Ret [x50]) "2025-01-01 12:00:00").
Proof. cbv zeta. repeat split; reflexivity. Qed.

(** C6, amended. If no notification that sets the event arrives before the
    timeout elapses, the session raises [QardioConnectionError] with the
    message "cannot connect", chained from the timeout: the class and the
    message that a transport failure gives, which differs in the chained
    cause only; that class is not the class of an abort. *)
Theorem C6_timeout_is_connection_error (progress : bool) (t : transport) :
  setup t = None ->
  existsb terminates (inbound t) = false ->
  fst (_measure_async progress t) =
    Raise (QardioConnectionError "cannot connect" TimeoutError) /\
  (forall e : exn,
      caught e = true ->
      fst (_measure_async progress (mk_transport (Some e) (inbound t))) =
      Raise (QardioConnectionError "cannot connect" e)) /\
  (forall (e : exn) (reason : string),
      class_of (QardioConnectionError "cannot connect" e) <>
      class_of (QardioMeasurementAborted reason)).
Proof.
  intros Hs Hq. split; [now apply session_quiet|]. split.
  - intros e Hc. now apply session_setup_failure.
  - intros e reason. discriminate.
Qed.

Lemma C6_timeout_is_connection_error_witness :
  fst (_measure_async true
         (mk_transport None
            [OnControl [xf2; x01];
             OnMeasurement [x00; x78; x00; x50; x00; x5d; x00]])) =
  Raise (QardioConnectionError "cannot connect" TimeoutError).
Proof.
  apply (C6_timeout_is_connection_error true
           (mk_transport None
              [OnControl [xf2; x01];
               OnMeasurement [x00; x78; x00; x50; x00; x5d; x00]]));
    reflexivity.
Defined.

(* ================================================================== *)
(** ** Aborted and Error on the control channel *)

(** On an Aborted or Error phase the control handler reports the phase,
    sets the event and raises [QardioMeasurementAborted] with the phase's
    string form into its caller; both phases raise that one class. *)
Lemma handle_control_abort_and_error (progress : bool) (st : cells)
    (data : bytes) (phase : Phase) :
  _decode_vendor data = Ret (Some phase) ->
  phase = ABORTED \/ phase = ERROR ->
  handle_control progress st data =
    (event_set (report progress (InfoPhase phase) st),
     Raise (QardioMeasurementAborted (Phase_str phase))) /\
  terminates (OnControl data) = true /\
  writes (OnControl data) = false.
Proof.
  intros Hd Hp.
  rewrite (handle_control_phase progress st data phase Hd).
  unfold terminates, writes. cbn [dispatch].
  rewrite (handle_control_phase false fresh data phase Hd).
  destruct Hp as [-> | ->]; repeat split.
Qed.

(** The exception the control handler raises stays with the dispatcher
    that called it: [aborted] is not set on this path, and the session
    that receives an Aborted phase returns [result] as it stands. *)
Lemma control_abort_session :
  _measure_async true (mk_transport None [OnControl [xf2; x05]]) =
  (Ret None, mk_cells true None false EmptyString [InfoPhase ABORTED]).
Proof. reflexivity. Qed.

(** C7. On the control-channel payloads [0xF2, 0x05] (Aborted) and
    [0xF2, 0x06] (Error) the handler sets the event and raises
    [QardioMeasurementAborted] with the phase's string form, the same
    class for both, into the dispatcher that called it; unlike the
    implicit-abort path it leaves [aborted] unset.  The session therefore
    does not end aborted: it returns its empty result, and
    [Plugin.measure] reads the battery and returns a row without a
    measurement instead of [None]. *)
Theorem C7_control_abort_returns_result (progress : bool) :
  snd (handle_control progress fresh [xf2; x05]) =
    Raise (QardioMeasurementAborted "Phase.ABORTED") /\
  snd (handle_control progress fresh [xf2; x06]) =
    Raise (QardioMeasurementAborted "Phase.ERROR") /\
  aborted_flag (fst (handle_control progress fresh [xf2; x05])) = false /\
  aborted_flag (fst (handle_control progress fresh [xf2; x06])) = false /\
  fst (_measure_async progress (mk_transport None [OnControl [xf2; x05]])) =
    Ret None /\
  fst (_measure_async progress (mk_transport None [OnControl [xf2; x06]])) =
    Ret None /\
  measure progress
    (mk_world (mk_transport None [OnControl [xf2; x05]]) (Ret [x57])
       "2025-01-01 12:00:00") =
  mk_observed [] 1
    (Ret (Some (mk_row "2025-01-01 12:00:00" None 87 EmptyString))).
Proof. destruct progress; repeat split; reflexivity. Qed.

(* ================================================================== *)
(** ** [Plugin.measure] *)

Lemma or_zero_some (s : Z) : or_zero (Some s) = s.
Proof.
  unfold or_zero, truthy. destruct (Z.eqb_spec s 0) as [->|]; reflexivity.
Qed.

(** The flags and the status of a parsed frame. *)
Lemma parse_fields (data : bytes) (m : reading) :
  parse_bp_notification data = Ret m ->
  m_flags m = flags_of data /\
  m_status m =
  if Z.testbit (flags_of data) 4
  then Some (int_from_bytes_little
               (slice data (status_offset (flags_of data))
                      (status_offset (flags_of data) + 2)))
  else None.
Proof.
  intros Hp. rewrite parse_bp_notification_eq in Hp. cbv zeta in Hp.
  destruct (len data <? sfloats_require (flags_of data))%nat;
    [discriminate|].
  assert (E : forall r1 r2 : reading, Ret r1 = Ret r2 -> r1 = r2)
    by (intros r1 r2 H; congruence).
  apply E in Hp. rewrite <- Hp. split; reflexivity.
Qed.

(** A notification that does not set the event writes nothing. *)
Lemma quiet_writes (n : notification) :
  terminates n = false -> writes n = false.
Proof.
  intros Hq. unfold writes.
  destruct (dispatch_quiet false fresh n Hq) as [Hr [Hf _]].
  cbv zeta. rewrite Hr, Hf. reflexivity.
Qed.

(** The first frame that parses with flags bit 4 set is the session's
    result, whatever came before without setting the event, when nothing
    handled after it writes [result] or [aborted]. *)
Lemma final_frame_session (progress : bool)
    (earlier later : list notification) (data : bytes) (m : reading) :
  existsb terminates earlier = false ->
  parse_bp_notification data = Ret m ->
  Z.testbit (m_flags m) 4 = true ->
  existsb writes later = false ->
  let out :=
    _measure_async progress
      (mk_transport None (earlier ++ OnMeasurement data :: later)) in
  fst out = Ret (Some m) /\
  event (snd out) = true /\
  result (snd out) = Some m /\
  aborted_flag (snd out) = false.
Proof.
  intros Hq Hp H4 Hl. cbv zeta. unfold _measure_async. cbn [setup inbound].
  destruct (wait_for_quiet progress earlier fresh []
              (OnMeasurement data :: later) eq_refl Hq)
    as [st' [u' [Hw [Hev [_ [Hf _]]]]]].
  rewrite Hw.
  pose proof (wait_for_event progress (OnMeasurement data :: later) st' u')
    as He.
  cbn [wait_for dispatch] in *.
  rewrite (handle_measurement_final progress st' data m Hp H4) in *.
  set (st1 := event_set (result_update m (report progress (InfoBp m) st')))
    in *.
  destruct (wait_for_silent progress later st1 u' Hl) as [Hr1 [Hf1 _]].
  assert (Hterm : terminates (OnMeasurement data) = true).
  { unfold terminates. cbn [dispatch].
    now rewrite (handle_measurement_final false fresh data m Hp H4). }
  cbn [existsb] in He. rewrite Hterm, orb_true_r in He. cbn [orb] in He.
  assert (Hf2 : aborted_flag st1 = false).
  { unfold st1, event_set, result_update. cbn [aborted_flag].
    now rewrite aborted_flag_report, Hf. }
  rewrite He, Hf1, Hf2, Hr1. cbn [fst snd]. rewrite He, Hf1, Hr1.
  unfold st1, event_set, result_update. cbn [result aborted_flag].
  rewrite aborted_flag_report, Hf. auto.
Qed.

(** A failed battery read is not caught: it leaves [Plugin.measure] as an
    exception and no row is returned. *)
Lemma measure_battery_failure (progress : bool) (w : world)
    (m : option reading) (msg : string) :
  fst (_measure_async progress (link w)) = Ret m ->
  battery_char w = Raise (BleakError msg) ->
  measure progress w =
  mk_observed [] 1
    (Raise (QardioConnectionError ("read failed: " ++ msg)%string
              (BleakError msg))).
Proof.
  intros Hs Hb. unfold measure. rewrite Hs, Hb. reflexivity.
Qed.

(** C8 as stated fails: the frame with flags bit 4 set is received and
    captured, the battery is read once, the read fails, and
    [Plugin.measure] raises instead of returning a result. *)
Lemma C8_counterexample :
  let frame := [x10; x78; x00; x50; x00; x5d; x00; x00; x00] in
  let w :=
    mk_world (mk_transport None [OnMeasurement frame])
      (Raise (BleakError "not connected")) "2025-01-01 12:00:00" in
  Z.testbit (flags_of frame) 4 = true /\
  fst (_measure_async true (link w)) =
    Ret (Some (mk_reading 0x10 "mmHg" 120 80 93 None (Some 0))) /\
  measure true w =
  mk_observed [] 1
    (Raise (QardioConnectionError "read failed: not connected"
              (BleakError "not connected"))).
Proof. cbv zeta. repeat split; reflexivity. Qed.

(** C8, amended. When the transport sets up, the first notification to
    set the event is a measurement-channel frame that parses with flags
    bit 4 set, and nothing handled after it until the client is closed
    writes [result] or [aborted] (no further such frame, no parsed
    implicit-abort frame), the session captures that frame as its result
    and returns it, and [Plugin.measure] reads the battery exactly once.
    When that read returns at least one byte, [Plugin.measure] returns a
    row holding the timestamp, the captured frame's unit, systolic,
    diastolic, MAP, pulse and status, the battery percentage (the first
    byte read), and the conditions decoded from the captured frame's
    status, joined with "|".  When the read fails or returns no byte,
    the failure leaves [Plugin.measure] as an exception and no result is
    returned. *)
Theorem C8_final_frame_success (progress : bool) (w : world)
    (earlier later : list notification) (data : bytes) (m : reading) :
  setup (link w) = None ->
  inbound (link w) = earlier ++ OnMeasurement data :: later ->
  existsb terminates earlier = false ->
  parse_bp_notification data = Ret m ->
  Z.testbit (m_flags m) 4 = true ->
  existsb writes later = false ->
  fst (_measure_async progress (link w)) = Ret (Some m) /\
  result (snd (_measure_async progress (link w))) = Some m /\
  battery_reads (measure progress w) = 1%nat /\
  (forall (b : byte) (rest : bytes),
      battery_char w = Ret (b :: rest) ->
      exists status : Z,
        m_status m = Some status /\
        measure progress w =
        mk_observed [] 1
          (Ret (Some (mk_row (now w) (Some m) (u8 b)
                        (join "|" (decode_conditions status)))))) /\
  (forall e : exn,
      get_battery (battery_char w) = Raise e ->
      measure progress w = mk_observed [] 1 (Raise e)).
Proof.
  intros Hs Hin Hq Hp H4 Hl.
  destruct (link w) as [s pending] eqn:Hlink.
  cbn [setup inbound] in Hs, Hin. subst s pending.
  destruct (final_frame_session progress earlier later data m Hq Hp H4 Hl)
    as [Hout [_ [Hres _]]].
  split; [exact Hout|]. split; [exact Hres|].
  assert (Hst : exists status, m_status m = Some status).
  { destruct (parse_fields data m Hp) as [Hfl Hstat].
    rewrite Hstat, <- Hfl, H4. eexists. reflexivity. }
  destruct Hst as [status Hst].
  unfold measure, get_battery. rewrite Hlink, Hout.
  split; [|split].
  - destruct (raw <- _read_char_async (battery_char w) ;; getitem raw 0);
      reflexivity.
  - intros b rest Hb. exists status. split; [exact Hst|]. rewrite Hb.
    cbn [_read_char_async bind getitem nth_error get_status].
    rewrite Hst, or_zero_some. reflexivity.
  - intros e He. rewrite He. reflexivity.
Qed.

Lemma C8_final_frame_success_witness :
  measure true
    (mk_world
       (mk_transport None
          [OnControl [xf2; x01];
           OnMeasurement [x00; x64; x00; x46; x00; x50; x00];
           OnMeasurement [x14; x78; x00; x50; x00; x5d; x00; x48; x00;
                          x05; x00];
           OnControl [xf2; x04]])
       (Ret [x57]) "2025-01-01 12:00:00") =
  mk_observed [] 1
    (Ret (Some (mk_row "2025-01-01 12:00:00"
                  (Some (mk_reading 0x14 "mmHg" 120 80 93 (Some 72%Q)
                           (Some 5)))
                  87 "body_movement|irregular_pulse"))).
Proof.
  destruct (C8_final_frame_success true
              (mk_world
                 (mk_transport None
                    [OnControl [xf2; x01];
                     OnMeasurement [x00; x64; x00; x46; x00; x50; x00];
                     OnMeasurement [x14; x78; x00; x50; x00; x5d; x00;
                                    x48; x00; x05; x00];
                     OnControl [xf2; x04]])
                 (Ret [x57]) "2025-01-01 12:00:00")
              [OnControl [xf2; x01];
               OnMeasurement [x00; x64; x00; x46; x00; x50; x00]]
              [OnControl [xf2; x04]]
              [x14; x78; x00; x50; x00; x5d; x00; x48; x00; x05; x00]
              (mk_reading 0x14 "mmHg" 120 80 93 (Some 72%Q) (Some 5))
              eq_refl eq_refl eq_refl eq_refl eq_refl eq_refl)
    as [_ [_ [_ [Hrow _]]]].
  destruct (Hrow x57 [] eq_refl) as [status [Hst Hm]].
  cbn [m_status] in Hst. injection Hst as <-. exact Hm.
Defined.

(** C10. Whenever the session raises [QardioConnectionError] or
    [QardioMeasurementAborted], [Plugin.measure] catches it, prints the
    line "[FAIL] " followed by the exception's message, reads no battery
    level and returns [None]. *)
Theorem C10_measure_returns_None_on_session_failure (progress : bool)
    (w : world) (e : exn) :
  fst (_measure_async progress (link w)) = Raise e ->
  class_of e = cQardioConnectionError \/
  class_of e = cQardioMeasurementAborted ->
  measure progress w =
  mk_observed [("[FAIL] " ++ str_exn e)%string] 0 (Ret None).
Proof.
  intros Hs Hc. unfold measure. rewrite Hs.
  destruct Hc as [-> | ->]; reflexivity.
Qed.

Lemma C10_measure_returns_None_on_session_failure_witness :
  measure true
    (mk_world
       (mk_transport None
          [OnMeasurement [x04; xff; x00; x01; x00; x00; x00; x00; x00]])
       (Ret [x57]) "2025-01-01 12:00:00") =
  mk_observed ["[FAIL] arm movement"] 0 (Ret None).
Proof.
  apply (C10_measure_returns_None_on_session_failure true
           (mk_world
              (mk_transport None
                 [OnMeasurement
                    [x04; xff; x00; x01; x00; x00; x00; x00; x00]])
              (Ret [x57]) "2025-01-01 12:00:00")
           (QardioMeasurementAborted "arm movement")).
  - reflexivity.
  - right. reflexivity.
Defined.

(** Connection failures, timeouts and aborts alike reach the caller of
    [Plugin.measure] as [None]. *)
Lemma measure_failure_is_None (progress : bool) (w : world) (e : exn) :
  match setup (link w) with Some e0 => caught e0 = true | None => True end ->
  fst (_measure_async progress (link w)) = Raise e ->
  returned (measure progress w) = Ret None /\
  battery_reads (measure progress w) = 0%nat.
Proof.
  intros Hc Hs.
  pose proof (session_failure_class progress (link w) e Hc Hs) as Hcl.
  unfold measure. rewrite Hs.
  destruct Hcl as [-> | ->]; split; reflexivity.
Qed.

(* ================================================================== *)
(** ** More on the SFLOAT decoder *)

Section SfloatMore.

Lemma land_mask_range (x : Z) (n : Z) :
  0 <= n -> 0 <= Z.land x (Z.ones n) < 2 ^ n.
Proof.
  intros Hn. rewrite Z.land_ones by assumption.
  apply Z.mod_pos_bound. apply Z.pow_pos_nonneg; lia.
Qed.

Lemma sfloat_mantissa_range (val : Z) : -2048 <= sfloat_mantissa val <= 2047.
Proof.
  unfold sfloat_mantissa. cbv zeta.
  pose proof (land_mask_range val 12 ltac:(lia)) as H.
  change (Z.ones 12) with 0x0FFF in H. change (2 ^ 12) with 4096 in H.
  destruct (Z.leb_spec 0x0800 (Z.land val 0x0FFF)); lia.
Qed.

Lemma sfloat_exponent_range (val : Z) : -8 <= sfloat_exponent val <= 7.
Proof.
  unfold sfloat_exponent. cbv zeta.
  pose proof (land_mask_range (Z.shiftr val 12) 4 ltac:(lia)) as H.
  change (Z.ones 4) with 0x000F in H. change (2 ^ 4) with 16 in H.
  destruct (Z.leb_spec 0x0008 (Z.land (Z.shiftr val 12) 0x000F)); lia.
Qed.

(** The two fields taken together give the word back. *)
Lemma sfloat_fields_word (val : Z) :
  0 <= val < 0x10000 ->
  sfloat_mantissa val mod 0x1000 + 0x1000 * (sfloat_exponent val mod 0x10) =
  val.
Proof.
  intros Hv. unfold sfloat_mantissa, sfloat_exponent. cbv zeta.
  change 0x0FFF with (Z.ones 12). change 0x000F with (Z.ones 4).
  rewrite !Z.land_ones by lia. rewrite Z.shiftr_div_pow2 by lia.
  change (2 ^ 12) with 4096. change (2 ^ 4) with 16.
  destruct (Z.leb_spec 2048 (val mod 4096));
    destruct (Z.leb_spec 8 ((val / 4096) mod 16));
    Z.div_mod_to_equations; lia.
Qed.

End SfloatMore.

(** X1. Every pair of bytes decodes to [mantissa * 10^exponent] for a mantissa
    in [-2048, 2047] and an exponent in [-8, 7] that are the two fields of
    the little-endian word; bytes after the second are not looked at. *)
Theorem parse_sfloat_decodes (b0 b1 : byte) (rest : bytes) :
  exists mantissa exponent : Z,
    -2048 <= mantissa <= 2047 /\
    -8 <= exponent <= 7 /\
    mantissa mod 0x1000 + 0x1000 * (exponent mod 0x10) =
      u8 b0 + 256 * u8 b1 /\
    parse_sfloat (b0 :: b1 :: rest) =
      Ret (inject_Z mantissa * 10 ^ exponent)%Q.
Proof.
  exists (sfloat_mantissa (u8 b0 + 256 * u8 b1)),
         (sfloat_exponent (u8 b0 + 256 * u8 b1)).
  split; [apply sfloat_mantissa_range|].
  split; [apply sfloat_exponent_range|].
  split.
  - apply sfloat_fields_word.
    pose proof (u8_range b0). pose proof (u8_range b1). lia.
  - rewrite parse_sfloat_pair. reflexivity.
Qed.

(** X2. [parse_sfloat] raises, and then [IndexError], exactly when it is given
    fewer than two bytes, and what it returns depends on the first two
    bytes only. *)
Theorem parse_sfloat_needs_two_bytes (raw : bytes) :
  (raises (parse_sfloat raw) = true <-> (len raw < 2)%nat) /\
  (raises (parse_sfloat raw) = true -> parse_sfloat raw = Raise IndexError) /\
  parse_sfloat raw = parse_sfloat (firstn 2 raw).
Proof.
  destruct raw as [|b0 [|b1 rest]]; unfold len; cbn [List.length firstn].
  - repeat split; try reflexivity; intros; lia.
  - repeat split; try reflexivity; intros; lia.
  - rewrite !parse_sfloat_pair. cbn [raises].
    repeat split; try discriminate; intros; lia.
Qed.

(** X3. Two 16-bit words with the same decoded mantissa and the same decoded
    exponent are the same word: the field extraction loses nothing. *)
Theorem sfloat_fields_injective (v w : Z) :
  0 <= v < 0x10000 ->
  0 <= w < 0x10000 ->
  sfloat_mantissa v = sfloat_mantissa w ->
  sfloat_exponent v = sfloat_exponent w ->
  v = w.
Proof.
  intros Hv Hw Hm He.
  rewrite <- (sfloat_fields_word v Hv), <- (sfloat_fields_word w Hw).
  rewrite Hm, He. reflexivity.
Qed.

Lemma sfloat_fields_injective_witness : 0x8078 = 0x8078.
Proof.
  apply (sfloat_fields_injective 0x8078 0x8078); solve [lia | reflexivity].
Defined.

(* ================================================================== *)
(** ** More on the frame parser *)

Section ParserMore.

Lemma int_from_bytes_little_range (raw : bytes) :
  0 <= int_from_bytes_little raw < 256 ^ Z.of_nat (len raw).
Proof.
  induction raw as [|b rest IH]; unfold len in *.
  - cbn. lia.
  - cbn [int_from_bytes_little List.length].
    rewrite Nat2Z.inj_succ, Z.pow_succ_r by lia.
    pose proof (u8_range b). lia.
Qed.

Lemma flags_of_range (data : bytes) : 0 <= flags_of data <= 255.
Proof.
  destruct data as [|b rest]; cbn [flags_of]; [lia|].
  pose proof (u8_range b). lia.
Qed.

Lemma flags_of_app (data extra : bytes) :
  (1 <= len data)%nat -> flags_of (data ++ extra) = flags_of data.
Proof.
  destruct data; unfold len; cbn [List.length]; [lia|reflexivity].
Qed.

Lemma word_at_app (data extra : bytes) (off : nat) :
  (off + 2 <= len data)%nat ->
  word_at (data ++ extra) off = word_at data off.
Proof.
  intros H. unfold word_at, len in *.
  rewrite !app_nth1 by lia. reflexivity.
Qed.

Lemma sfloat_at_app (data extra : bytes) (off : nat) :
  (off + 2 <= len data)%nat ->
  sfloat_at (data ++ extra) off = sfloat_at data off.
Proof.
  intros H. unfold sfloat_at. rewrite word_at_app by assumption.
  reflexivity.
Qed.

Lemma len_app (a b : bytes) : len (a ++ b) = (len a + len b)%nat.
Proof. unfold len. apply length_app. Qed.

End ParserMore.

(** X4. Whatever the parser returns has its flags in [0, 255], the unit "kPa"
    or "mmHg", a pulse rate exactly when flags bit 2 is set, a status
    exactly when flags bit 4 is set, and a status within [0, 65535]; and
    the payload it came from holds at least seven bytes. *)
Theorem parsed_frame_invariants (data : bytes) (m : reading) :
  parse_bp_notification data = Ret m ->
  0 <= m_flags m <= 255 /\
  (m_unit m = "kPa" \/ m_unit m = "mmHg") /\
  (m_pulse m <> None <-> Z.testbit (m_flags m) 2 = true) /\
  (m_status m <> None <-> Z.testbit (m_flags m) 4 = true) /\
  (forall status : Z, m_status m = Some status -> 0 <= status <= 65535) /\
  (7 <= len data)%nat.
Proof.
  intros Hp. rewrite parse_bp_notification_eq in Hp. cbv zeta in Hp.
  destruct (Nat.ltb_spec (len data) (sfloats_require (flags_of data)))
    as [|Hlong]; [discriminate|].
  assert (E : forall r1 r2 : reading, Ret r1 = Ret r2 -> r1 = r2)
    by (intros r1 r2 H; congruence).
  apply E in Hp. rewrite <- Hp.
  cbn [m_flags m_unit m_pulse m_status].
  split; [apply flags_of_range|].
  split; [destruct (Z.testbit (flags_of data) 0); auto|].
  split; [destruct (Z.testbit (flags_of data) 2); split; congruence|].
  split; [destruct (Z.testbit (flags_of data) 4); split; congruence|].
  split.
  - intros status Hs.
    destruct (Z.testbit (flags_of data) 4); [|discriminate].
    injection Hs as <-.
    pose proof (int_from_bytes_little_range
                  (slice data (status_offset (flags_of data))
                     (status_offset (flags_of data) + 2))) as Hr.
    rewrite len_slice2 in Hr.
    assert (256 ^ Z.of_nat
              (Nat.min 2 (len data - status_offset (flags_of data))) <=
            256 ^ 2)
      by (apply Z.pow_le_mono_r; lia).
    change (256 ^ 2) with 65536 in *. lia.
  - unfold sfloats_require in Hlong.
    destruct (Z.testbit (flags_of data) 2); lia.
Qed.

Lemma parsed_frame_invariants_witness :
  0 <= 0x15 <= 255 /\
  ("kPa" = "kPa" \/ "kPa" = "mmHg") /\
  (Some 72%Q <> None <-> Z.testbit 0x15 2 = true) /\
  (Some 11 <> None <-> Z.testbit 0x15 4 = true) /\
  (forall status : Z, Some 11 = Some status -> 0 <= status <= 65535) /\
  (7 <= len [x15; x78; x00; x50; x00; x5d; x00; x48; x00; x0b; x00])%nat.
Proof.
  apply (parsed_frame_invariants
           [x15; x78; x00; x50; x00; x5d; x00; x48; x00; x0b; x00]
           (mk_reading 0x15 "kPa" 120 80 93 (Some 72%Q) (Some 11))).
  reflexivity.
Defined.

(** X5. Bytes that follow a frame long enough for its flags are not looked
    at: the parse of the extended payload is the parse of the frame. *)
Theorem parse_ignores_trailing_bytes (data extra : bytes) :
  (flags_require (flags_of data) <= len data)%nat ->
  parse_bp_notification (data ++ extra) = parse_bp_notification data.
Proof.
  intros Hlen. rewrite !parse_bp_notification_eq. cbv zeta.
  unfold flags_require in Hlen.
  rewrite flags_of_app by lia.
  set (flags := flags_of data) in *.
  unfold sfloats_require. rewrite len_app.
  destruct (Nat.ltb_spec (len data + len extra)
              (7 + (if Z.testbit flags 2 then 2 else 0))) as [Hs|_];
    [lia|].
  destruct (Nat.ltb_spec (len data)
              (7 + (if Z.testbit flags 2 then 2 else 0))) as [Hs|_];
    [lia|].
  rewrite !sfloat_at_app by lia.
  assert (Hpulse :
            (if Z.testbit flags 2
             then Some (sfloat_at (data ++ extra) 7) else None) =
            (if Z.testbit flags 2 then Some (sfloat_at data 7) else None)).
  { destruct (Z.testbit flags 2); [|reflexivity].
    rewrite sfloat_at_app by lia. reflexivity. }
  rewrite Hpulse.
  destruct (Z.testbit flags 4) eqn:E4; [|reflexivity].
  assert (Hoff : (status_offset flags + 2 <= len data)%nat)
    by (unfold status_offset; destruct (Z.testbit flags 2); lia).
  rewrite !status_slice by (rewrite ?len_app; lia).
  rewrite word_at_app by assumption. reflexivity.
Qed.

Lemma parse_ignores_trailing_bytes_witness :
  parse_bp_notification
    ([x10; x78; x00; x50; x00; x5d; x00; x02; x00] ++ [xff; xff; xff]) =
  parse_bp_notification [x10; x78; x00; x50; x00; x5d; x00; x02; x00].
Proof.
  apply (parse_ignores_trailing_bytes
           [x10; x78; x00; x50; x00; x5d; x00; x02; x00] [xff; xff; xff]).
  vm_compute. lia.
Defined.

(** X6. Only bits 0, 2 and 4 of the flags byte steer the parse: two payloads
    that differ in their flags byte alone, and there in other bits only,
    both raise or both parse, to frames that differ in [flags] alone. *)
Theorem parse_uses_flag_bits_0_2_4 (f g : byte) (body : bytes) :
  Z.testbit (u8 f) 0 = Z.testbit (u8 g) 0 ->
  Z.testbit (u8 f) 2 = Z.testbit (u8 g) 2 ->
  Z.testbit (u8 f) 4 = Z.testbit (u8 g) 4 ->
  match parse_bp_notification (f :: body),
        parse_bp_notification (g :: body) with
  | Ret m, Ret m' =>
      m_flags m = u8 f /\ m_flags m' = u8 g /\
      m_unit m = m_unit m' /\
      m_systolic m = m_systolic m' /\
      m_diastolic m = m_diastolic m' /\
      m_map m = m_map m' /\
      m_pulse m = m_pulse m' /\
      m_status m = m_status m'
  | Raise e, Raise e' => e = e'
  | _, _ => False
  end.
Proof.
  intros H0 H2 H4. rewrite !parse_bp_notification_eq. cbv zeta.
  cbn [flags_of]. unfold sfloats_require, status_offset.
  rewrite <- H0, <- H2, <- H4.
  replace (len (g :: body)) with (len (f :: body)) by reflexivity.
  destruct (len (f :: body) <?
            7 + (if Z.testbit (u8 f) 2 then 2 else 0))%nat;
    [reflexivity|].
  cbn [m_flags m_unit m_systolic m_diastolic m_map m_pulse m_status].
  destruct (Z.testbit (u8 f) 2); repeat split; reflexivity.
Qed.

Lemma parse_uses_flag_bits_0_2_4_witness :
  match parse_bp_notification [x10; x78; x00; x50; x00; x5d; x00; x02; x00],
        parse_bp_notification [xfa; x78; x00; x50; x00; x5d; x00; x02; x00]
  with
  | Ret m, Ret m' =>
      m_flags m = u8 x10 /\ m_flags m' = u8 xfa /\
      m_unit m = m_unit m' /\
      m_systolic m = m_systolic m' /\
      m_diastolic m = m_diastolic m' /\
      m_map m = m_map m' /\
      m_pulse m = m_pulse m' /\
      m_status m = m_status m'
  | Raise e, Raise e' => e = e'
  | _, _ => False
  end.
Proof.
  apply (parse_uses_flag_bits_0_2_4 x10 xfa
           [x78; x00; x50; x00; x5d; x00; x02; x00]); reflexivity.
Defined.

(* ================================================================== *)
(** ** Bit tables: conditions and features *)

Section BitTables.

Lemma truthy_land_shiftl (x k : Z) :
  0 <= k -> truthy (Z.land x (Z.shiftl 1 k)) = Z.testbit x k.
Proof.
  intros Hk. rewrite Z.shiftl_1_l. now apply truthy_land_pow2.
Qed.

Lemma decode_conditions_bits (status : Z) :
  decode_conditions status =
  (if Z.testbit status 0 then ["body_movement"] else []) ++
  (if Z.testbit status 1 then ["cuff_too_loose"] else []) ++
  (if Z.testbit status 2 then ["irregular_pulse"] else []) ++
  (if Z.testbit status 3 then ["pulse_rate_out_of_range"] else []).
Proof.
  unfold decode_conditions, mapping. cbn [filter fst].
  rewrite !truthy_land_shiftl by lia.
  destruct (Z.testbit status 0), (Z.testbit status 1),
    (Z.testbit status 2), (Z.testbit status 3); reflexivity.
Qed.

Lemma testbit_mod_low (x k n : Z) :
  0 <= k < n -> Z.testbit (x mod 2 ^ n) k = Z.testbit x k.
Proof. intros H. apply Z.mod_pow2_bits_low. lia. Qed.

(** The low [n] bits are all clear exactly when the number is a multiple
    of [2^n]. *)
Lemma low_bits_clear (x n : Z) :
  0 <= n ->
  (forall k, 0 <= k < n -> Z.testbit x k = false) <-> x mod 2 ^ n = 0.
Proof.
  intros Hn. split.
  - intros Hbits. apply Z.bits_inj'. intros k Hk. rewrite Z.bits_0.
    destruct (Z.lt_ge_cases k n) as [Hlt|Hge].
    + rewrite testbit_mod_low by lia. apply Hbits. lia.
    + apply Z.mod_pow2_bits_high. lia.
  - intros Hz k Hk. rewrite <- (testbit_mod_low x k n) by assumption.
    rewrite Hz. apply Z.bits_0.
Qed.

(** Bits of the first byte of a little-endian integer. *)
Lemma int_from_bytes_little_low_bits (raw : bytes) (k : Z) :
  0 <= k < 8 ->
  Z.testbit (int_from_bytes_little raw) k = Z.testbit (flags_of raw) k.
Proof.
  intros Hk. destruct raw as [|b rest]; [reflexivity|].
  cbn [int_from_bytes_little flags_of].
  set (r := int_from_bytes_little rest).
  rewrite <- (testbit_mod_low (u8 b + 256 * r) k 8) by assumption.
  change (2 ^ 8) with 256.
  replace (u8 b + 256 * r) with (u8 b + r * 256) by lia.
  rewrite Z.mod_add by lia.
  rewrite Z.mod_small by apply u8_range. reflexivity.
Qed.

End BitTables.

(** X7. The condition decoder looks at the four low bits of the status only:
    higher bits change nothing, the list is empty exactly when those four
    bits are clear, and it never names a condition twice nor more than
    four conditions. *)
Theorem decode_conditions_low_bits (status : Z) :
  decode_conditions status = decode_conditions (status mod 16) /\
  (decode_conditions status = [] <-> status mod 16 = 0) /\
  NoDup (decode_conditions status) /\
  (List.length (decode_conditions status) <= 4)%nat.
Proof.
  split; [|split; [|split]].
  - rewrite !decode_conditions_bits. change 16 with (2 ^ 4).
    rewrite !testbit_mod_low by lia. reflexivity.
  - change 16 with (2 ^ 4). rewrite <- low_bits_clear by lia.
    rewrite decode_conditions_bits. split.
    + intros Hnil k Hk.
      assert (Hc : k = 0 \/ k = 1 \/ k = 2 \/ k = 3) by lia.
      destruct (Z.testbit status 0) eqn:E0; [discriminate|].
      destruct (Z.testbit status 1) eqn:E1; [discriminate|].
      destruct (Z.testbit status 2) eqn:E2; [discriminate|].
      destruct (Z.testbit status 3) eqn:E3; [discriminate|].
      destruct Hc as [->|[->|[->| ->]]]; assumption.
    + intros Hbits.
      rewrite (Hbits 0), (Hbits 1), (Hbits 2), (Hbits 3) by lia.
      reflexivity.
  - rewrite decode_conditions_bits.
    destruct (Z.testbit status 0), (Z.testbit status 1),
      (Z.testbit status 2), (Z.testbit status 3); cbn [app];
      repeat (constructor; [cbn [In]; intuition discriminate|]);
      constructor.
  - rewrite decode_conditions_bits.
    destruct (Z.testbit status 0), (Z.testbit status 1),
      (Z.testbit status 2), (Z.testbit status 3); cbn; lia.
Qed.

(* ================================================================== *)
(** ** [get_battery] and [get_features] *)

Lemma read_char_async_cases (read : res bytes) :
  match read with
  | Ret raw => _read_char_async read = Ret raw
  | Raise (BleakError msg) =>
      _read_char_async read =
      Raise (QardioConnectionError ("read failed: " ++ msg)%string
               (BleakError msg))
  | Raise e => _read_char_async read = Raise e
  end.
Proof. destruct read as [raw|[]]; reflexivity. Qed.

(** X8. [get_features] fails exactly as the read does, a [BleakError] turned
    into [QardioConnectionError]; otherwise the bitmask is the
    little-endian value of all the bytes read, and a feature is listed
    exactly when its bit is set in the first byte: an empty read lists
    none, and later bytes add none. *)
Theorem get_features_first_byte (read : res bytes) :
  match read with
  | Ret raw =>
      exists f : features,
        get_features read = Ret f /\
        bitmask f = int_from_bytes_little raw /\
        0 <= bitmask f < 256 ^ Z.of_nat (len raw) /\
        supported f =
          (if Z.testbit (flags_of raw) 0
           then ["Body Movement Detection"] else []) ++
          (if Z.testbit (flags_of raw) 1
           then ["Cuff Fit Detection"] else []) ++
          (if Z.testbit (flags_of raw) 2
           then ["Irregular Pulse Detection"] else []) ++
          (if Z.testbit (flags_of raw) 3
           then ["Pulse Rate Range Detection"] else []) ++
          (if Z.testbit (flags_of raw) 4
           then ["Measurement Position Detection"] else [])
  | Raise (BleakError msg) =>
      get_features read =
      Raise (QardioConnectionError ("read failed: " ++ msg)%string
               (BleakError msg))
  | Raise e => get_features read = Raise e
  end.
Proof.
  destruct read as [raw|[]]; try reflexivity.
  eexists. split; [reflexivity|]. cbn [bitmask supported].
  split; [reflexivity|]. split; [apply int_from_bytes_little_range|].
  unfold features_map. cbn [filter fst].
  rewrite !truthy_land_shiftl by lia.
  rewrite !int_from_bytes_little_low_bits by lia.
  destruct (Z.testbit (flags_of raw) 0), (Z.testbit (flags_of raw) 1),
    (Z.testbit (flags_of raw) 2), (Z.testbit (flags_of raw) 3),
    (Z.testbit (flags_of raw) 4); reflexivity.
Qed.

(** [get_battery] returns the first byte read, a number within [0, 255]
    that nothing caps at 100; a read that returns no byte raises
    [IndexError], a [BleakError] comes out as [QardioConnectionError],
    and any other failure of the read comes out as it is. *)
Theorem get_battery_cases (read : res bytes) :
  match read with
  | Ret [] => get_battery read = Raise IndexError
  | Ret (b :: _) => get_battery read = Ret (u8 b) /\ 0 <= u8 b <= 255
  | Raise (BleakError msg) =>
      get_battery read =
      Raise (QardioConnectionError ("read failed: " ++ msg)%string
               (BleakError msg))
  | Raise e => get_battery read = Raise e
  end.
Proof.
  destruct read as [[|b rest]|[]]; try reflexivity.
  split; [reflexivity|]. pose proof (u8_range b). lia.
Qed.

(* ================================================================== *)
(** ** Dictionaries *)

Section DictFacts.

Context {V : Type}.

Lemma dict_get_set_same (d : Dict.t V) (k : string) (v : V) :
  Dict.get (Dict.set d k v) k = Some v.
Proof.
  induction d as [|[k' v'] rest IH]; cbn [Dict.set Dict.get].
  - now rewrite String.eqb_refl.
  - destruct (String.eqb_spec k k'); cbn [Dict.get].
    + now rewrite String.eqb_refl.
    + destruct (String.eqb_spec k k'); [contradiction|exact IH].
Qed.

Lemma dict_get_set_other (d : Dict.t V) (k k0 : string) (v : V) :
  k0 <> k -> Dict.get (Dict.set d k v) k0 = Dict.get d k0.
Proof.
  intros Hne. induction d as [|[k' v'] rest IH]; cbn [Dict.set Dict.get].
  - destruct (String.eqb_spec k0 k); [contradiction|reflexivity].
  - destruct (String.eqb_spec k k') as [<-|Hk]; cbn [Dict.get].
    + destruct (String.eqb_spec k0 k); [contradiction|reflexivity].
    + destruct (String.eqb_spec k0 k'); [reflexivity|exact IH].
Qed.

Lemma dict_get_None_keys (d : Dict.t V) (k : string) :
  Dict.get d k = None <-> ~ In k (Dict.keys d).
Proof.
  induction d as [|[k' v'] rest IH]; cbn [Dict.get Dict.keys map fst In].
  - tauto.
  - destruct (String.eqb_spec k k') as [->|Hne].
    + split; [discriminate|tauto].
    + rewrite IH. unfold Dict.keys. split.
      * intros H [E|I]; [congruence|contradiction].
      * intros H I. apply H. now right.
Qed.

Lemma dict_keys_set_new (d : Dict.t V) (k : string) (v : V) :
  Dict.get d k = None -> Dict.keys (Dict.set d k v) = Dict.keys d ++ [k].
Proof.
  induction d as [|[k' v'] rest IH]; cbn [Dict.get Dict.set]; [reflexivity|].
  destruct (String.eqb_spec k k'); [discriminate|].
  intros H. unfold Dict.keys in *. cbn [map fst app]. now rewrite IH.
Qed.

Lemma dict_keys_set_old (d : Dict.t V) (k : string) (v : V) :
  Dict.get d k <> None -> Dict.keys (Dict.set d k v) = Dict.keys d.
Proof.
  induction d as [|[k' v'] rest IH]; cbn [Dict.get Dict.set]; [congruence|].
  destruct (String.eqb_spec k k') as [->|Hne]; [reflexivity|].
  intros H. unfold Dict.keys in *. cbn [map fst]. now rewrite IH.
Qed.

End DictFacts.

(* ================================================================== *)
(** ** [get_device_info] *)

Section DeviceInfoFacts.

Variable decode_strip : bytes -> option string.
Variable chars : string -> res bytes.

Lemma read_info_ok (uuids : list string) :
  forall info : Dict.t string,
    NoDup uuids ->
    (forall u, In u uuids -> Dict.get info u = None) ->
    (forall u, In u uuids -> raises (_read_char_async (chars u)) = false) ->
    exists info' : Dict.t string,
      read_info decode_strip chars uuids info = (Ret info', uuids) /\
      Dict.keys info' = Dict.keys info ++ uuids /\
      (forall u raw,
          In u uuids -> chars u = Ret raw ->
          Dict.get info' u =
          Some match decode_strip raw with
               | Some s => s
               | None => hex raw
               end) /\
      (forall k, ~ In k uuids -> Dict.get info' k = Dict.get info k).
Proof.
  induction uuids as [|u rest IH]; intros info Hnd Hnew Hok.
  - exists info. cbn. rewrite app_nil_r. repeat split; tauto.
  - cbn [read_info].
    pose proof (Hok u (or_introl eq_refl)) as Hu.
    pose proof (read_char_async_cases (chars u)) as Hc.
    destruct (chars u) as [raw|e] eqn:Eu.
    2:{ destruct e; rewrite Hc in Hu; discriminate. }
    rewrite Hc.
    set (text := match decode_strip raw with
                 | Some s => s
                 | None => hex raw
                 end).
    inversion Hnd as [|? ? Hnotin Hnd']; subst.
    destruct (IH (Dict.set info u text) Hnd') as [info' [Hr [Hk [Hg Hf]]]].
    + intros v Hv. rewrite dict_get_set_other.
      * apply Hnew. now right.
      * intros ->. contradiction.
    + intros v Hv. apply Hok. now right.
    + exists info'. rewrite Hr. split; [reflexivity|]. split; [|split].
      * rewrite Hk, dict_keys_set_new by (apply Hnew; now left).
        now rewrite <- app_assoc.
      * intros v raw' [<-|Hv] Hread.
        -- rewrite Hf by assumption. rewrite dict_get_set_same.
           rewrite Eu in Hread. injection Hread as <-. reflexivity.
        -- now apply Hg.
      * intros k Hk'. rewrite Hf by (intros I; apply Hk'; now right).
        apply dict_get_set_other. intros ->. apply Hk'. now left.
Qed.

Lemma read_info_fails (before : list string) :
  forall (u : string) (after : list string) (e : exn) (info : Dict.t string),
    (forall v, In v before -> raises (_read_char_async (chars v)) = false) ->
    _read_char_async (chars u) = Raise e ->
    read_info decode_strip chars (before ++ u :: after) info =
    (Raise e, before ++ [u]).
Proof.
  induction before as [|v before IH]; intros u after e info Hok Hfail.
  - cbn [app read_info]. rewrite Hfail. reflexivity.
  - cbn [app read_info].
    pose proof (Hok v (or_introl eq_refl)) as Hv.
    destruct (_read_char_async (chars v)) as [raw|e']; [|discriminate].
    rewrite (IH u after e) by (auto; intros w Hw; apply Hok; now right).
    reflexivity.
Qed.

Lemma device_info_uuids_NoDup : NoDup device_info_uuids.
Proof.
  unfold device_info_uuids.
  repeat (constructor; [cbn [In]; intuition discriminate|]).
  constructor.
Qed.

End DeviceInfoFacts.

(** X9. [get_device_info] is all or nothing.  When every one of the eight
    reads succeeds, it reads them once each in the order of the source
    and returns a dictionary with exactly those eight keys in that order,
    each holding the decoded and stripped text of its characteristic, or
    the hexadecimal form of the bytes when they do not decode.  When a
    read fails, the failure of the first such read comes out, no partial
    dictionary is returned and no later characteristic is read. *)
Theorem get_device_info_all_or_nothing
    (decode_strip : bytes -> option string) (chars : string -> res bytes) :
  ((forall u, In u device_info_uuids ->
              raises (_read_char_async (chars u)) = false) ->
   exists info : Dict.t string,
     get_device_info decode_strip chars = (Ret info, device_info_uuids) /\
     Dict.keys info = device_info_uuids /\
     forall u raw,
       In u device_info_uuids -> chars u = Ret raw ->
       Dict.get info u =
       Some match decode_strip raw with
            | Some s => s
            | None => hex raw
            end) /\
  (forall before u after e,
      device_info_uuids = before ++ u :: after ->
      (forall v, In v before ->
                 raises (_read_char_async (chars v)) = false) ->
      _read_char_async (chars u) = Raise e ->
      get_device_info decode_strip chars = (Raise e, before ++ [u])).
Proof.
  split.
  - intros Hok.
    destruct (read_info_ok decode_strip chars device_info_uuids []
                device_info_uuids_NoDup (fun _ _ => eq_refl) Hok)
      as [info [Hr [Hk [Hg _]]]].
    exists info. auto.
  - intros before u after e Hsplit Hok Hfail.
    unfold get_device_info. rewrite Hsplit.
    now apply read_info_fails.
Qed.

Lemma get_device_info_all_or_nothing_witness :
  get_device_info (fun _ => None)
    (fun u => if String.eqb u DI_SERIAL_UUID
              then Raise (BleakError "gone") else Ret [x51; x41]) =
  (Raise (QardioConnectionError "read failed: gone" (BleakError "gone")),
   [DI_MANUF_UUID; DI_MODEL_UUID] ++ [DI_SERIAL_UUID]).
Proof.
  destruct (get_device_info_all_or_nothing (fun _ => None)
              (fun u => if String.eqb u DI_SERIAL_UUID
                        then Raise (BleakError "gone") else Ret [x51; x41]))
    as [_ H].
  apply (H [DI_MANUF_UUID; DI_MODEL_UUID] DI_SERIAL_UUID
           [DI_FWREV_UUID; DI_SWREV_UUID; DI_HWREV_UUID;
            DI_SYSTEMID_UUID; DI_PNPID_UUID]).
  - reflexivity.
  - intros v [<-|[<-|[]]]; reflexivity.
  - reflexivity.
Defined.

(* ================================================================== *)
(** ** What the session keeps true *)

Section SessionInvariant.

Variable progress : bool.
Variable seen : list notification.

Lemma reachable_fresh : reachable seen fresh.
Proof. split; cbn; [discriminate|intros m; discriminate]. Qed.

Lemma reachable_report (info : progress_info) (st : cells) :
  reachable seen st -> reachable seen (report progress info st).
Proof.
  unfold reachable.
  rewrite aborted_flag_report, event_report, aborted_reason_report,
    result_report.
  tauto.
Qed.

Lemma reachable_event_set (st : cells) :
  reachable seen st -> reachable seen (event_set st).
Proof.
  intros [Ha Hr].
  split; cbn [event_set aborted_flag event aborted_reason result].
  - intros H. destruct (Ha H) as [_ [? ?]]. auto.
  - intros m H. destruct (Hr m H) as [_ [? ?]]. auto.
Qed.

Lemma dispatch_reachable (st : cells) (n : notification) :
  In n seen ->
  reachable seen st ->
  reachable seen (fst (dispatch progress st n)).
Proof.
  intros Hin Hst. destruct n as [data|data]; cbn [dispatch].
  - unfold handle_measurement.
    destruct (parse_bp_notification data) as [m|e] eqn:Hp; [|exact Hst].
    destruct (implicit_abort data) eqn:Hab.
    + pose proof (implicit_abort_parse data Hab) as Hlen.
      rewrite Hp in Hlen. cbn [raises] in Hlen.
      destruct (Nat.ltb_spec (len data) 9); [discriminate|].
      destruct Hst as [_ Hr].
      split; cbn [fst event_set aborted_flag event aborted_reason result];
        rewrite ?aborted_reason_report, ?result_report;
        cbn [aborted_set aborted_reason result].
      * intros _. split; [reflexivity|]. split; [reflexivity|].
        exists data. auto.
      * intros m' H'. destruct (Hr m' H') as [_ [? ?]]. auto.
    + destruct (truthy (Z.land (m_flags m) 16)) eqn:H4; cbn [fst].
      * pose proof (reachable_report (InfoBp m) st Hst) as [Ha Hr].
        rewrite truthy_bit4 in H4.
        split; cbn [event_set result_update aborted_flag event
                      aborted_reason result].
        -- intros H. destruct (Ha H) as [_ [? ?]]. auto.
        -- intros m' [= <-]. split; [reflexivity|]. split; [exact H4|].
           exists data. auto.
      * now apply reachable_report.
  - unfold handle_control.
    destruct (_decode_vendor data) as [[phase|]|e]; [|exact Hst..].
    destruct phase; cbn [fst Phase_eqb Phase_value Z.eqb Pos.eqb orb];
      repeat apply reachable_event_set; now apply reachable_report.
Qed.

Lemma wait_for_reachable (pending : list notification) :
  forall (st : cells) (unwound : list exn),
    (forall n, In n pending -> In n seen) ->
    reachable seen st ->
    reachable seen (fst (wait_for progress st unwound pending)).
Proof.
  induction pending as [|n rest IH]; intros st unwound Hsub Hst.
  - exact Hst.
  - cbn [wait_for].
    pose proof (dispatch_reachable st n (Hsub n (or_introl eq_refl)) Hst)
      as Hd.
    destruct (dispatch progress st n) as [st' [u|e]]; cbn [fst] in Hd;
      apply IH; auto; intros k Hk; apply Hsub; now right.
Qed.

End SessionInvariant.

(** X10. An abort that the session raises always carries the reason "arm
    movement", and one of the measurement payloads received has the
    implicit-abort signature and at least nine bytes: an Aborted or Error
    phase on the control channel never becomes the session's abort. *)
Theorem session_abort_is_arm_movement (progress : bool) (t : transport)
    (reason : string) :
  setup t = None ->
  fst (_measure_async progress t) = Raise (QardioMeasurementAborted reason) ->
  reason = "arm movement" /\
  exists data : bytes,
    In (OnMeasurement data) (inbound t) /\
    implicit_abort data = true /\
    (9 <= len data)%nat.
Proof.
  intros Hs. unfold _measure_async. rewrite Hs.
  pose proof (wait_for_reachable progress (inbound t) (inbound t) fresh []
                (fun _ H => H) (reachable_fresh (inbound t))) as [Ha _].
  destruct (event (fst (wait_for progress fresh [] (inbound t)))).
  - destruct (aborted_flag (fst (wait_for progress fresh [] (inbound t))));
      cbn [fst]; [|discriminate].
    intros [= <-]. destruct (Ha eq_refl) as [_ [-> Hd]]. auto.
  - cbn [fst reraise caught]. discriminate.
Qed.

Lemma session_abort_is_arm_movement_witness :
  "arm movement" = "arm movement" /\
  exists data : bytes,
    In (OnMeasurement data)
       [OnControl [xf2; x02];
        OnMeasurement [x04; xff; x00; x01; x00; x00; x00; x00; x00]] /\
    implicit_abort data = true /\
    (9 <= len data)%nat.
Proof.
  apply (session_abort_is_arm_movement true
           (mk_transport None
              [OnControl [xf2; x02];
               OnMeasurement [x04; xff; x00; x01; x00; x00; x00; x00; x00]])
           "arm movement"); reflexivity.
Defined.

(** X11. A session never returns a frame it did not receive: a non-empty
    result is the parse of one of the measurement payloads received, has
    flags bit 4 set and carries a status. *)
Theorem session_result_is_final_frame (progress : bool) (t : transport)
    (m : reading) :
  fst (_measure_async progress t) = Ret (Some m) ->
  Z.testbit (m_flags m) 4 = true /\
  m_status m <> None /\
  exists data : bytes,
    In (OnMeasurement data) (inbound t) /\
    parse_bp_notification data = Ret m.
Proof.
  unfold _measure_async, reraise.
  destruct (setup t) as [e0|].
  { destruct (caught e0); discriminate. }
  pose proof (wait_for_reachable progress (inbound t) (inbound t) fresh []
                (fun _ H => H) (reachable_fresh (inbound t))) as [_ Hr].
  destruct (event (fst (wait_for progress fresh [] (inbound t))));
    [|cbn [fst caught]; discriminate].
  destruct (aborted_flag (fst (wait_for progress fresh [] (inbound t))));
    cbn [fst]; [discriminate|].
  intros [= Hres]. destruct (Hr m Hres) as [_ [H4 [data [Hin Hp]]]].
  split; [exact H4|]. split; [|exists data; auto].
  destruct (parse_fields data m Hp) as [Hfl Hst].
  rewrite Hst, <- Hfl, H4. discriminate.
Qed.

Lemma session_result_is_final_frame_witness :
  Z.testbit 0x10 4 = true /\
  Some 3 <> None /\
  exists data : bytes,
    In (OnMeasurement data)
       [OnMeasurement [x10; x78; x00; x50; x00; x5d; x00; x03; x00]] /\
    parse_bp_notification data =
    Ret (mk_reading 0x10 "mmHg" 120 80 93 None (Some 3)).
Proof.
  apply (session_result_is_final_frame true
           (mk_transport None
              [OnMeasurement [x10; x78; x00; x50; x00; x5d; x00; x03; x00]])
           (mk_reading 0x10 "mmHg" 120 80 93 None (Some 3))).
  reflexivity.
Defined.

(* ================================================================== *)
(** ** The progress callback and the outcome *)

Section Progress.

Lemma core_eq (st1 st2 : cells) :
  core st1 = core st2 ->
  event st1 = event st2 /\ result st1 = result st2 /\
  aborted_flag st1 = aborted_flag st2 /\
  aborted_reason st1 = aborted_reason st2.
Proof. unfold core. intros [= -> -> -> ->]. auto. Qed.

Lemma core_report (p : bool) (info : progress_info) (st : cells) :
  core (report p info st) = core st.
Proof. unfold report. destruct p; reflexivity. Qed.

(** A handler's effect on the rest of the cells, and what it raises, do
    not depend on whether a callback was passed. *)
Lemma dispatch_core (p q : bool) (st1 st2 : cells) (n : notification) :
  core st1 = core st2 ->
  core (fst (dispatch p st1 n)) = core (fst (dispatch q st2 n)) /\
  snd (dispatch p st1 n) = snd (dispatch q st2 n).
Proof.
  intros Hc. destruct n as [data|data]; cbn [dispatch].
  - unfold handle_measurement.
    destruct (parse_bp_notification data) as [m|e]; [|auto].
    destruct (implicit_abort data).
    + cbn [fst snd]. split; [|reflexivity].
      unfold core, event_set. cbn [event result aborted_flag aborted_reason].
      rewrite !result_report, !aborted_flag_report, !aborted_reason_report.
      cbn [aborted_set result aborted_flag aborted_reason].
      apply core_eq in Hc as [_ [H2 _]]. now rewrite H2.
    + destruct (truthy (Z.land (m_flags m) 16)); cbn [fst snd].
      * split; [|reflexivity].
        unfold core, event_set, result_update.
        cbn [event result aborted_flag aborted_reason].
        rewrite !aborted_flag_report, !aborted_reason_report.
        apply core_eq in Hc as [_ [_ [H3 H4]]]. now rewrite H3, H4.
      * rewrite !core_report. auto.
  - unfold handle_control.
    destruct (_decode_vendor data) as [[phase|]|e]; [|auto..].
    destruct phase; cbn [fst snd Phase_eqb Phase_value Z.eqb Pos.eqb orb];
      (split; [|reflexivity]);
      unfold core, event_set; cbn [event result aborted_flag aborted_reason];
      rewrite ?event_report, !result_report, !aborted_flag_report,
        !aborted_reason_report;
      apply core_eq in Hc as [H1 [H2 [H3 H4]]];
      rewrite ?H1, H2, H3, H4; reflexivity.
Qed.

Lemma wait_for_core (p q : bool) (pending : list notification) :
  forall (st1 st2 : cells) (unwound : list exn),
    core st1 = core st2 ->
    core (fst (wait_for p st1 unwound pending)) =
    core (fst (wait_for q st2 unwound pending)) /\
    snd (wait_for p st1 unwound pending) =
    snd (wait_for q st2 unwound pending).
Proof.
  induction pending as [|n rest IH]; intros st1 st2 unwound Hc;
    cbn [wait_for]; [auto|].
  destruct (dispatch_core p q st1 st2 n Hc) as [Hc' Hr].
  destruct (dispatch p st1 n) as [a ra], (dispatch q st2 n) as [b rb].
  cbn [fst snd] in Hc', Hr. subst rb. destruct ra; now apply IH.
Qed.

Lemma dispatch_shown_silent (st : cells) (n : notification) :
  shown (fst (dispatch false st n)) = shown st.
Proof.
  destruct n as [data|data]; cbn [dispatch].
  - unfold handle_measurement.
    destruct (parse_bp_notification data) as [m|e]; [|reflexivity].
    destruct (implicit_abort data); [reflexivity|].
    destruct (truthy (Z.land (m_flags m) 16)); reflexivity.
  - unfold handle_control.
    destruct (_decode_vendor data) as [[phase|]|e]; [|reflexivity..].
    destruct phase; reflexivity.
Qed.

Lemma dispatch_shown_once (p : bool) (st : cells) (n : notification) :
  (List.length (shown (fst (dispatch p st n))) <=
   S (List.length (shown st)))%nat.
Proof.
  destruct p; [|rewrite dispatch_shown_silent; lia].
  destruct n as [data|data]; cbn [dispatch].
  - unfold handle_measurement.
    destruct (parse_bp_notification data) as [m|e]; [|cbn; lia].
    destruct (implicit_abort data);
      [cbn; rewrite length_app; cbn; lia|].
    destruct (truthy (Z.land (m_flags m) 16));
      cbn; rewrite length_app; cbn; lia.
  - unfold handle_control.
    destruct (_decode_vendor data) as [[phase|]|e]; [|cbn; lia..].
    destruct phase; cbn; rewrite length_app; cbn; lia.
Qed.

Lemma wait_for_shown_silent (pending : list notification) :
  forall (st : cells) (unwound : list exn),
    shown (fst (wait_for false st unwound pending)) = shown st.
Proof.
  induction pending as [|n rest IH]; intros st unwound; cbn [wait_for];
    [reflexivity|].
  pose proof (dispatch_shown_silent st n) as Hd.
  destruct (dispatch false st n) as [st' [u|e]]; cbn [fst] in Hd;
    rewrite IH; exact Hd.
Qed.

Lemma wait_for_shown_bound (p : bool) (pending : list notification) :
  forall (st : cells) (unwound : list exn),
    (List.length (shown (fst (wait_for p st unwound pending))) <=
     List.length (shown st) + List.length pending)%nat.
Proof.
  induction pending as [|n rest IH]; intros st unwound; cbn [wait_for];
    cbn [fst List.length]; [lia|].
  pose proof (dispatch_shown_once p st n) as Hd.
  destruct (dispatch p st n) as [st' [u|e]]; cbn [fst] in Hd.
  - pose proof (IH st' unwound). lia.
  - pose proof (IH st' (unwound ++ [e])). lia.
Qed.

End Progress.

(** With a callback that returns, the session ends as it does without
    one; without one nothing is shown, and with one the callback is
    called at most once per notification handled. *)
Lemma session_progress_irrelevant (progress : bool) (t : transport) :
  fst (_measure_async progress t) = fst (_measure_async false t) /\
  shown (snd (_measure_async false t)) = [] /\
  (List.length (shown (snd (_measure_async progress t))) <=
   List.length (inbound t))%nat.
Proof.
  unfold _measure_async.
  destruct (setup t) as [e0|]; [cbn; repeat split; lia|].
  destruct (wait_for_core progress false (inbound t) fresh fresh []
              eq_refl) as [Hc _].
  apply core_eq in Hc as [Hev [Hres [Hfl Hre]]].
  pose proof (wait_for_shown_silent (inbound t) fresh []) as Hsil.
  pose proof (wait_for_shown_bound progress (inbound t) fresh []) as Hb.
  cbn [fresh shown List.length] in Hsil, Hb.
  rewrite Hev, Hfl, Hres, Hre.
  destruct (event (fst (wait_for false fresh [] (inbound t))));
    [destruct (aborted_flag (fst (wait_for false fresh [] (inbound t))))|];
    cbn [fst snd]; repeat split; auto.
Qed.

(* ================================================================== *)
(** ** Any progress callback *)

Section Callbacks.

Lemma report_with_returning (progress : bool) (info : progress_info)
    (st : cells) :
  report_with (returning progress) info st = (report progress info st, None).
Proof. destruct progress; reflexivity. Qed.

(** For a callback that returns, the handlers are the handlers above. *)
Lemma dispatch_with_returning (progress : bool) (st : cells)
    (n : notification) :
  dispatch_with (returning progress) st n = dispatch progress st n.
Proof.
  destruct n as [data|data]; cbn [dispatch_with dispatch].
  - unfold handle_measurement_with, handle_measurement.
    destruct (parse_bp_notification data) as [m|e]; [|reflexivity].
    cbv zeta. rewrite !report_with_returning. reflexivity.
  - unfold handle_control_with, handle_control.
    destruct (_decode_vendor data) as [[phase|]|e]; [|reflexivity..].
    rewrite report_with_returning. reflexivity.
Qed.

Lemma wait_for_with_returning (progress : bool)
    (pending : list notification) :
  forall (st : cells) (unwound : list exn),
    wait_for_with (returning progress) st unwound pending =
    wait_for progress st unwound pending.
Proof.
  induction pending as [|n rest IH]; intros st unwound;
    cbn [wait_for_with wait_for]; [reflexivity|].
  rewrite dispatch_with_returning.
  destruct (dispatch progress st n) as [st' [u|e]]; apply IH.
Qed.

Lemma measure_async_with_returning (progress : bool) (t : transport) :
  _measure_async_with (returning progress) t = _measure_async progress t.
Proof.
  unfold _measure_async_with, _measure_async.
  now rewrite wait_for_with_returning.
Qed.

(** Two callbacks that do the same on every call are interchangeable. *)
Lemma dispatch_with_ext (f g : callback) (st : cells) (n : notification) :
  (forall hist info, f hist info = g hist info) ->
  dispatch_with (Some f) st n = dispatch_with (Some g) st n.
Proof.
  intros Hfg. destruct n as [data|data]; cbn [dispatch_with].
  - unfold handle_measurement_with.
    destruct (parse_bp_notification data) as [m|e]; [|reflexivity].
    cbv zeta. unfold report_with. rewrite !Hfg. reflexivity.
  - unfold handle_control_with.
    destruct (_decode_vendor data) as [[phase|]|e]; [|reflexivity..].
    unfold report_with. rewrite Hfg. reflexivity.
Qed.

Lemma wait_for_with_ext (f g : callback) (pending : list notification) :
  (forall hist info, f hist info = g hist info) ->
  forall (st : cells) (unwound : list exn),
    wait_for_with (Some f) st unwound pending =
    wait_for_with (Some g) st unwound pending.
Proof.
  intros Hfg. induction pending as [|n rest IH]; intros st unwound;
    cbn [wait_for_with]; [reflexivity|].
  rewrite (dispatch_with_ext f g st n Hfg).
  destruct (dispatch_with (Some g) st n) as [st' [u|e]]; apply IH.
Qed.

(** The callback is called at most once per notification, whatever it
    does. *)
Lemma dispatch_with_shown_once (progress : option callback) (st : cells)
    (n : notification) :
  (List.length (shown (fst (dispatch_with progress st n))) <=
   S (List.length (shown st)))%nat.
Proof.
  destruct n as [data|data]; cbn [dispatch_with].
  - unfold handle_measurement_with.
    destruct (parse_bp_notification data) as [m|e]; [|cbn; lia].
    cbv zeta. unfold report_with.
    destruct (implicit_abort data), progress as [call|];
      try destruct (call _ _); try destruct (truthy _);
      cbn; rewrite ?length_app; cbn; lia.
  - unfold handle_control_with.
    destruct (_decode_vendor data) as [[phase|]|e]; [|cbn; lia..].
    unfold report_with.
    destruct progress as [call|]; try destruct (call _ _);
      destruct phase; cbn; rewrite ?length_app; cbn; lia.
Qed.

Lemma wait_for_with_shown_bound (progress : option callback)
    (pending : list notification) :
  forall (st : cells) (unwound : list exn),
    (List.length (shown (fst (wait_for_with progress st unwound pending))) <=
     List.length (shown st) + List.length pending)%nat.
Proof.
  induction pending as [|n rest IH]; intros st unwound;
    cbn [wait_for_with]; cbn [fst List.length]; [lia|].
  pose proof (dispatch_with_shown_once progress st n) as Hd.
  destruct (dispatch_with progress st n) as [st' [u|e]]; cbn [fst] in Hd.
  - pose proof (IH st' unwound). lia.
  - pose proof (IH st' (unwound ++ [e])). lia.
Qed.

End Callbacks.

(** A callback that raises can change the outcome: it is called before
    [result.update(m)] and [event.set()], which its exception skips, so a
    final frame handled with such a callback leaves the session to time
    out. *)
Lemma raising_callback_loses_frame :
  let frame := [x10; x78; x00; x50; x00; x5d; x00; x03; x00] in
  let t := mk_transport None [OnMeasurement frame] in
  fst (_measure_async_with (Some (fun _ _ => Some (OSError "closed"))) t) =
    Raise (QardioConnectionError "cannot connect" TimeoutError) /\
  fst (_measure_async_with None t) =
    Ret (Some (mk_reading 0x10 "mmHg" 120 80 93 None (Some 3))).
Proof. cbv zeta. split; reflexivity. Qed.

(** X12. A progress callback that returns from every call changes nothing
    but what is shown: the session ends as it does without a callback,
    with the same result or the same exception.  Without a callback
    nothing is shown, and a callback, whatever it does, is called at most
    once per notification handled. *)
Theorem progress_does_not_change_outcome (call : callback) (t : transport) :
  (forall (hist : list progress_info) (info : progress_info),
      call hist info = None) ->
  fst (_measure_async_with (Some call) t) =
    fst (_measure_async_with None t) /\
  _measure_async_with (Some call) t = _measure_async true t /\
  _measure_async_with None t = _measure_async false t /\
  shown (snd (_measure_async_with None t)) = [] /\
  (forall any : callback,
      (List.length (shown (snd (_measure_async_with (Some any) t))) <=
       List.length (inbound t))%nat).
Proof.
  intros Hret.
  assert (Hcall : _measure_async_with (Some call) t = _measure_async true t).
  { rewrite <- (measure_async_with_returning true t).
    unfold _measure_async_with, returning.
    now rewrite (wait_for_with_ext call (fun _ _ => None) (inbound t) Hret). }
  pose proof (measure_async_with_returning false t) as Hnone.
  cbn [returning] in Hnone.
  destruct (session_progress_irrelevant true t) as [Hsame [Hsil _]].
  rewrite Hcall, Hnone. repeat split; try assumption.
  intros any. unfold _measure_async_with.
  destruct (setup t) as [e0|]; [cbn; lia|].
  pose proof (wait_for_with_shown_bound (Some any) (inbound t) fresh [])
    as Hb.
  cbn [fresh shown List.length] in Hb.
  destruct (event (fst (wait_for_with (Some any) fresh [] (inbound t))));
    [destruct (aborted_flag
                 (fst (wait_for_with (Some any) fresh [] (inbound t))))|];
    cbn [snd]; lia.
Qed.

Lemma progress_does_not_change_outcome_witness :
  fst (_measure_async_with (Some (fun _ _ => None))
         (mk_transport None
            [OnControl [xf2; x01];
             OnMeasurement [x10; x78; x00; x50; x00; x5d; x00; x03; x00]])) =
  fst (_measure_async_with None
         (mk_transport None
            [OnControl [xf2; x01];
             OnMeasurement [x10; x78; x00; x50; x00; x5d; x00; x03; x00]])).
Proof.
  apply (progress_does_not_change_outcome (fun _ _ => None)
           (mk_transport None
              [OnControl [xf2; x01];
               OnMeasurement
                 [x10; x78; x00; x50; x00; x5d; x00; x03; x00]])).
  reflexivity.
Defined.

(** X13. How a session can end.  It never lets a [BleakError], a
    [TimeoutError] or an [OSError] out as such; it returns only when the
    transport set up and some notification ended the wait; and with the
    transport set up it times out exactly when no notification ends the
    wait. *)
Theorem session_endings (progress : bool) (t : transport) :
  (forall e : exn,
      fst (_measure_async progress t) = Raise e -> caught e = false) /\
  (forall r : option reading,
      fst (_measure_async progress t) = Ret r ->
      setup t = None /\ existsb terminates (inbound t) = true) /\
  (setup t = None ->
   (existsb terminates (inbound t) = false <->
    fst (_measure_async progress t) =
    Raise (QardioConnectionError "cannot connect" TimeoutError))).
Proof.
  unfold _measure_async, reraise.
  destruct (setup t) as [e0|].
  - split; [|split].
    + destruct (caught e0) eqn:Hc; cbn [fst]; intros e [= <-];
        [reflexivity|exact Hc].
    + destruct (caught e0); discriminate.
    + discriminate.
  - pose proof (wait_for_event progress (inbound t) fresh []) as He.
    cbn [fresh event orb] in He. rewrite He.
    destruct (existsb terminates (inbound t)).
    + destruct (aborted_flag (fst (wait_for progress fresh [] (inbound t))));
        cbn [fst]; repeat split; intros; try discriminate; auto;
        match goal with H : Raise _ = Raise _ |- _ =>
          injection H as <-; reflexivity end.
    + cbn [fst caught]. repeat split; intros; try discriminate; auto.
      match goal with H : Raise _ = Raise _ |- _ =>
        injection H as <-; reflexivity end.
Qed.

(* ================================================================== *)
(** ** More on [Plugin.measure] *)

(** X14. A row that [Plugin.measure] returns is consistent: it was preceded by
    exactly one battery read and no printed line, its timestamp is the
    current time, its measurement keys are the session's result, its
    battery is the first byte read, a number within [0, 255] and the value
    [get_battery] gives for the same read, and its conditions are those
    decoded from the status it holds itself, none when it holds no
    status. *)
Theorem measure_row_consistent (progress : bool) (w : world) (r : row) :
  returned (measure progress w) = Ret (Some r) ->
  battery_reads (measure progress w) = 1%nat /\
  printed (measure progress w) = [] /\
  row_timestamp r = now w /\
  fst (_measure_async progress (link w)) = Ret (row_m r) /\
  get_battery (battery_char w) = Ret (row_battery r) /\
  0 <= row_battery r <= 255 /\
  row_conditions r =
    join "|" (decode_conditions (or_zero (get_status (row_m r)))).
Proof.
  unfold measure, get_battery.
  destruct (fst (_measure_async progress (link w))) as [m|e].
  - destruct (_read_char_async (battery_char w)) as [[|b rest]|e];
      cbn [bind getitem nth_error returned battery_reads printed];
      try discriminate.
    intros [= <-]. cbn [row_timestamp row_m row_battery row_conditions].
    pose proof (u8_range b). repeat split; lia.
  - destruct (class_of e); cbn [returned]; discriminate.
Qed.

Lemma measure_row_consistent_witness :
  battery_reads
    (measure true
       (mk_world
          (mk_transport None
             [OnMeasurement [x10; x78; x00; x50; x00; x5d; x00; x03; x00]])
          (Ret [x57]) "2025-01-01 12:00:00")) = 1%nat.
Proof.
  apply (measure_row_consistent true
           (mk_world
              (mk_transport None
                 [OnMeasurement
                    [x10; x78; x00; x50; x00; x5d; x00; x03; x00]])
              (Ret [x57]) "2025-01-01 12:00:00")
           (mk_row "2025-01-01 12:00:00"
              (Some (mk_reading 0x10 "mmHg" 120 80 93 None (Some 3)))
              87 "body_movement|cuff_too_loose")).
  reflexivity.
Defined.

(** X15. [Plugin.measure] returns [None] exactly when the session raised one of
    the module's two exceptions; after a session that returned it either
    returns a row or raises what the battery read raised, and it reads
    the battery exactly when the session returned. *)
Theorem measure_None_iff_session_failed (progress : bool) (w : world) :
  (returned (measure progress w) = Ret None <->
   exists e : exn,
     fst (_measure_async progress (link w)) = Raise e /\
     (class_of e = cQardioConnectionError \/
      class_of e = cQardioMeasurementAborted)) /\
  (battery_reads (measure progress w) = 1%nat <->
   raises (fst (_measure_async progress (link w))) = false) /\
  (battery_reads (measure progress w) <= 1)%nat.
Proof.
  unfold measure.
  destruct (fst (_measure_async progress (link w))) as [m|e].
  - destruct (raw <- _read_char_async (battery_char w) ;; getitem raw 0)
      as [b|e]; cbn [returned battery_reads raises].
    + repeat split; auto; try discriminate.
      intros [e [He _]]. discriminate.
    + repeat split; auto; try discriminate.
      intros [e' [He _]]. discriminate.
  - destruct (class_of e) eqn:Hc; cbn [returned battery_reads raises];
      (split; [split|split; [split; discriminate|lia]]);
      try discriminate;
      try solve [intros _; exists e; rewrite Hc; auto];
      try solve [intros _; reflexivity];
      intros [e' [He [H|H]]]; injection He as <-; rewrite Hc in H;
      discriminate.
Qed.

(** A session in which some notification sets the event and none writes
    [result] or [aborted] returns the empty result. *)
Lemma session_without_writes (progress : bool) (t : transport) :
  setup t = None ->
  existsb terminates (inbound t) = true ->
  existsb writes (inbound t) = false ->
  fst (_measure_async progress t) = Ret None.
Proof.
  intros Hs Ht Hw. unfold _measure_async. rewrite Hs.
  pose proof (wait_for_event progress (inbound t) fresh []) as He.
  rewrite Ht, orb_true_r in He.
  destruct (wait_for_silent progress (inbound t) fresh [] Hw)
    as [Hr [Hf _]].
  rewrite He, Hf, Hr. reflexivity.
Qed.

(** X16. When a Completed phase is handled and nothing handled in the
    session, before or after it, writes [result] or [aborted] (no parsed
    final frame, no parsed implicit-abort frame), the result stays empty:
    [Plugin.measure] then returns a row without any measurement key,
    holding the timestamp, the battery and an empty conditions text. *)
Theorem measure_completed_without_frame (progress : bool) (w : world)
    (earlier later : list notification) (data : bytes) (b : byte)
    (rest : bytes) :
  setup (link w) = None ->
  inbound (link w) = earlier ++ OnControl data :: later ->
  existsb writes (earlier ++ later) = false ->
  _decode_vendor data = Ret (Some COMPLETED) ->
  battery_char w = Ret (b :: rest) ->
  fst (_measure_async progress (link w)) = Ret None /\
  measure progress w =
  mk_observed [] 1 (Ret (Some (mk_row (now w) None (u8 b) EmptyString))).
Proof.
  intros Hs Hin Hq Hd Hb.
  assert (Hdata : terminates (OnControl data) = true /\
                  writes (OnControl data) = false).
  { unfold terminates, writes. cbn [dispatch].
    rewrite (handle_control_phase false fresh data COMPLETED Hd).
    split; reflexivity. }
  destruct Hdata as [Hterm Hsil].
  rewrite existsb_app in Hq. apply orb_false_elim in Hq as [Hq1 Hq2].
  assert (Hout : fst (_measure_async progress (link w)) = Ret None).
  { apply session_without_writes; [exact Hs| |]; rewrite Hin, existsb_app;
      cbn [existsb].
    - rewrite Hterm. cbn [orb]. apply orb_true_r.
    - rewrite Hq1, Hsil, Hq2. reflexivity. }
  split; [exact Hout|].
  unfold measure. rewrite Hout, Hb. reflexivity.
Qed.

Lemma measure_completed_without_frame_witness :
  measure true
    (mk_world
       (mk_transport None
          [OnControl [xf2; x01]; OnControl [xf2; x04];
           OnMeasurement [x00; x78; x00; x50; x00; x5d; x00]])
       (Ret [x57]) "2025-01-01 12:00:00") =
  mk_observed [] 1
    (Ret (Some (mk_row "2025-01-01 12:00:00" None 87 EmptyString))).
Proof.
  apply (measure_completed_without_frame true
           (mk_world
              (mk_transport None
                 [OnControl [xf2; x01]; OnControl [xf2; x04];
                  OnMeasurement [x00; x78; x00; x50; x00; x5d; x00]])
              (Ret [x57]) "2025-01-01 12:00:00")
           [OnControl [xf2; x01]]
           [OnMeasurement [x00; x78; x00; x50; x00; x5d; x00]]
           [xf2; x04] x57 []); reflexivity.
Defined.

(* ================================================================== *)
(** ** Deleting from a dictionary *)

Section DictDelete.

Context {V : Type}.

Lemma dict_mem_get (d : Dict.t V) (k : string) :
  Dict.mem d k = true <-> Dict.get d k <> None.
Proof.
  unfold Dict.mem. destruct (Dict.get d k); split; congruence.
Qed.

Lemma dict_get_del_other (d : Dict.t V) (k k0 : string) :
  k0 <> k -> Dict.get (Dict.del d k) k0 = Dict.get d k0.
Proof.
  intros Hne. induction d as [|[k' v'] rest IH]; cbn [Dict.del Dict.get];
    [reflexivity|].
  destruct (String.eqb_spec k k') as [<-|Hk]; cbn [Dict.get].
  - destruct (String.eqb_spec k0 k); [contradiction|reflexivity].
  - destruct (String.eqb_spec k0 k'); [reflexivity|exact IH].
Qed.

Lemma dict_keys_del_incl (d : Dict.t V) (k k0 : string) :
  In k0 (Dict.keys (Dict.del d k)) -> In k0 (Dict.keys d).
Proof.
  unfold Dict.keys.
  induction d as [|[k' v'] rest IH]; cbn [Dict.del map fst In]; [tauto|].
  destruct (String.eqb_spec k k'); cbn [map fst In]; tauto.
Qed.

Lemma dict_keys_del_NoDup (d : Dict.t V) (k : string) :
  NoDup (Dict.keys d) -> NoDup (Dict.keys (Dict.del d k)).
Proof.
  induction d as [|[k' v'] rest IH]; cbn [Dict.del]; [auto|].
  unfold Dict.keys in *. cbn [map fst]. intros Hnd.
  inversion Hnd as [|? ? Hnotin Hrest]; subst.
  destruct (String.eqb_spec k k'); [exact Hrest|].
  cbn [map fst]. constructor; [|now apply IH].
  intros Hin. apply Hnotin. exact (dict_keys_del_incl rest k k' Hin).
Qed.

Lemma dict_get_del_same (d : Dict.t V) (k : string) :
  NoDup (Dict.keys d) -> Dict.get (Dict.del d k) k = None.
Proof.
  induction d as [|[k' v'] rest IH]; cbn [Dict.del]; [reflexivity|].
  unfold Dict.keys in *. cbn [map fst]. intros Hnd.
  inversion Hnd as [|? ? Hnotin Hrest]; subst.
  destruct (String.eqb_spec k k') as [->|Hne].
  - now apply dict_get_None_keys.
  - cbn [Dict.get]. destruct (String.eqb_spec k k'); [contradiction|].
    now apply IH.
Qed.

Lemma dict_keys_set_NoDup (d : Dict.t V) (k : string) (v : V) :
  NoDup (Dict.keys d) -> NoDup (Dict.keys (Dict.set d k v)).
Proof.
  intros Hnd. destruct (Dict.get d k) eqn:Hg.
  - rewrite dict_keys_set_old by congruence. exact Hnd.
  - rewrite dict_keys_set_new by assumption.
    apply NoDup_app; [exact Hnd|repeat constructor; cbn; tauto|].
    intros x Hx [<-|[]]. now apply dict_get_None_keys in Hg.
Qed.

End DictDelete.

(* ================================================================== *)
(** ** Sorting the names *)

Section Sorting.

Lemma insert_sorted_perm (x : string) (names : list string) :
  Permutation (Shell.insert_sorted x names) (x :: names).
Proof.
  induction names as [|y rest IH]; cbn [Shell.insert_sorted]; [auto|].
  destruct (String.leb x y); [auto|].
  rewrite IH. apply perm_swap.
Qed.

Lemma insert_sorted_sorted (x : string) (names : list string) :
  Sorted Shell.name_le names -> Sorted Shell.name_le (Shell.insert_sorted x names).
Proof.
  induction names as [|y rest IH]; cbn [Shell.insert_sorted]; intros Hs.
  - repeat constructor.
  - destruct (String.leb x y) eqn:Hxy.
    + constructor; [exact Hs|constructor; exact Hxy].
    + inversion Hs as [|? ? Hrest Hhd]; subst.
      assert (Hyx : Shell.name_le y x).
      { destruct (String.leb_total x y) as [H|H]; [congruence|exact H]. }
      constructor; [now apply IH|].
      destruct rest as [|z rest']; cbn [Shell.insert_sorted].
      * constructor. exact Hyx.
      * destruct (String.leb x z); constructor; [exact Hyx|].
        now inversion Hhd.
Qed.

Lemma sorted_perm (names : list string) :
  Permutation (Shell.sorted names) names.
Proof.
  induction names as [|x rest IH]; cbn; [constructor|].
  rewrite insert_sorted_perm. now constructor.
Qed.

Lemma sorted_sorted (names : list string) :
  Sorted Shell.name_le (Shell.sorted names).
Proof.
  induction names as [|x rest IH]; cbn; [constructor|].
  now apply insert_sorted_sorted.
Qed.

End Sorting.

(* ================================================================== *)
(** ** The [dataset] command *)

Section DatasetFacts.

Variable V : Type.
Variable disk : option exn.

Lemma index_None (x : string) (tokens : list string) :
  ~ In x tokens -> Shell.index x tokens = None.
Proof.
  induction tokens as [|y rest IH]; cbn [Shell.index In]; [reflexivity|].
  intros Hn. destruct (String.eqb_spec x y) as [->|_]; [tauto|].
  rewrite IH by tauto. reflexivity.
Qed.

Lemma index_first (x : string) (before after : list string) :
  ~ In x before ->
  Shell.index x (before ++ x :: after) = Some (List.length before).
Proof.
  induction before as [|y rest IH]; cbn [Shell.index app In List.length];
    intros Hn.
  - now rewrite String.eqb_refl.
  - destruct (String.eqb_spec x y) as [->|_]; [tauto|].
    rewrite IH by tauto. reflexivity.
Qed.

Lemma parse_filter_none (tokens : list string) :
  ~ In "--if" tokens -> Shell.parse_filter tokens = inr tokens.
Proof.
  intros Hn. unfold Shell.parse_filter. now rewrite index_None.
Qed.

(** Every command leaves the keys unique. *)
Lemma do_dataset_NoDup (tokens : list string) (ds : Dict.t V) :
  NoDup (Dict.keys ds) ->
  NoDup (Dict.keys (Shell.data (Shell.do_dataset V disk tokens ds))).
Proof.
  intros Hnd. unfold Shell.do_dataset.
  destruct (Shell.parse_filter tokens) as [name|[|op args]]; [auto..|].
  destruct (String.eqb op "ls"); [auto|].
  destruct (String.eqb op "bless");
    [destruct args as [|? [|? ?]]; auto|].
  destruct (String.eqb op "rm").
  { destruct args as [|name [|? ?]]; auto.
    destruct (Dict.mem ds name); cbn [Shell.data Shell.print_and_save]; auto.
    now apply dict_keys_del_NoDup. }
  destruct (String.eqb op "cp").
  { destruct args as [|src [|dest [|? ?]]]; auto.
    destruct (Dict.mem ds src); auto. }
  destruct (String.eqb op "mv"); [|auto].
  destruct args as [|old [|new [|? ?]]]; auto.
  destruct (Dict.get ds old); cbn [Shell.data Shell.print_and_save]; auto.
  now apply dict_keys_set_NoDup, dict_keys_del_NoDup.
Qed.

End DatasetFacts.

(** X17. [dataset rm <name>] on a dataset that is there removes it and nothing
    else, prints one confirmation and saves once; on a name that is not
    there it changes nothing, prints that the dataset was not found and
    does not save. *)
Theorem dataset_rm (V : Type) (disk : option exn) (name : string)
    (ds : Dict.t V) :
  NoDup (Dict.keys ds) ->
  let r := Shell.do_dataset V disk ["rm"; name] ds in
  Dict.get (Shell.data r) name = None /\
  (forall k, k <> name -> Dict.get (Shell.data r) k = Dict.get ds k) /\
  (Dict.mem ds name = true ->
   Shell.out r = [("[OK] Removed dataset " ++ Shell.quoted name)%string] /\
   Shell.saves r = 1%nat) /\
  (Dict.mem ds name = false ->
   r = Shell.mk_after V
         [("[FAIL] Dataset " ++ Shell.quoted name ++ " not found")%string]
         ds 0 None).
Proof.
  intros Hnd r. subst r. unfold Shell.do_dataset.
  assert (Hpf : Shell.parse_filter ["rm"; name] = inr ["rm"; name]).
  { unfold Shell.parse_filter. cbn [Shell.index].
    destruct (String.eqb "--if" "rm") eqn:E; [discriminate|].
    destruct (String.eqb "--if" name); reflexivity. }
  rewrite Hpf. cbn [String.eqb Ascii.eqb Bool.eqb].
  destruct (Dict.mem ds name) eqn:Hm;
    cbn [Shell.data Shell.out Shell.saves Shell.print_and_save].
  - split; [now apply dict_get_del_same|].
    split; [intros k Hk; now apply dict_get_del_other|].
    split; [auto|discriminate].
  - split.
    + unfold Dict.mem in Hm. destruct (Dict.get ds name); congruence.
    + split; [reflexivity|]. split; [discriminate|reflexivity].
Qed.

Lemma dataset_rm_witness :
  Dict.get
    (Shell.data
       (Shell.do_dataset nat None ["rm"; "night"]
          [("day", 1%nat); ("night", 2%nat)])) "night" = None.
Proof.
  apply (dataset_rm nat None "night" [("day", 1%nat); ("night", 2%nat)]).
  repeat (constructor; [cbn [In]; intuition discriminate|]). constructor.
Defined.

(** Moving a value from one key to another, as [ds[new] = ds.pop(old)]
    does. *)
Lemma dict_move (V : Type) (d : Dict.t V) (old new : string) (value : V) :
  NoDup (Dict.keys d) ->
  let d' := Dict.set (Dict.del d old) new value in
  Dict.get d' new = Some value /\
  (old <> new -> Dict.get d' old = None) /\
  (forall k, k <> old -> k <> new -> Dict.get d' k = Dict.get d k).
Proof.
  intros Hnd d'. subst d'. split; [apply dict_get_set_same|]. split.
  - intros Hne. rewrite dict_get_set_other by assumption.
    now apply dict_get_del_same.
  - intros k Hk1 Hk2. rewrite dict_get_set_other by assumption.
    now apply dict_get_del_other.
Qed.

Lemma do_dataset_mv_eq (V : Type) (disk : option exn) (old new : string)
    (value : V) (ds : Dict.t V) :
  old <> "--if" ->
  Dict.get ds old = Some value ->
  Shell.do_dataset V disk ["mv"; old; new] ds =
  Shell.print_and_save V disk
    ("[OK] Renamed dataset " ++ Shell.quoted old ++ " to " ++
     Shell.quoted new)%string
    (Dict.set (Dict.del ds old) new value).
Proof.
  intros Hold Hget. unfold Shell.do_dataset.
  assert (Hpf : Shell.parse_filter ["mv"; old; new] = inr ["mv"; old; new]).
  { unfold Shell.parse_filter. cbn [Shell.index].
    destruct (String.eqb "--if" "mv") eqn:E; [discriminate|].
    destruct (String.eqb_spec "--if" old) as [<-|_]; [contradiction|].
    destruct (String.eqb "--if" new); reflexivity. }
  rewrite Hpf. cbn [String.eqb Ascii.eqb Bool.eqb]. rewrite Hget.
  reflexivity.
Qed.

(** X18. [dataset mv <old> <new>] on a dataset that is there, whose name is not
    ["--if"], moves its value to [new], overwriting what [new] held,
    leaves every other dataset as it was, prints one confirmation and
    saves once. *)
Theorem dataset_mv (V : Type) (disk : option exn) (old new : string)
    (value : V) (ds : Dict.t V) :
  NoDup (Dict.keys ds) ->
  old <> "--if" ->
  Dict.get ds old = Some value ->
  let r := Shell.do_dataset V disk ["mv"; old; new] ds in
  Dict.get (Shell.data r) new = Some value /\
  (old <> new -> Dict.get (Shell.data r) old = None) /\
  (forall k, k <> old -> k <> new ->
             Dict.get (Shell.data r) k = Dict.get ds k) /\
  Shell.out r =
    [("[OK] Renamed dataset " ++ Shell.quoted old ++ " to " ++
      Shell.quoted new)%string] /\
  Shell.saves r = 1%nat.
Proof.
  intros Hnd Hold Hget r. subst r.
  rewrite (do_dataset_mv_eq V disk old new value ds Hold Hget).
  cbn [Shell.data Shell.out Shell.saves Shell.print_and_save].
  destruct (dict_move V ds old new value Hnd) as [H1 [H2 H3]].
  repeat split; assumption.
Qed.

Lemma dataset_mv_witness :
  Dict.get
    (Shell.data
       (Shell.do_dataset nat None ["mv"; "day"; "night"]
          [("day", 1%nat); ("night", 2%nat)])) "night" = Some 1%nat.
Proof.
  apply (dataset_mv nat None "day" "night" 1%nat
           [("day", 1%nat); ("night", 2%nat)]).
  - repeat (constructor; [cbn [In]; intuition discriminate|]). constructor.
  - discriminate.
  - reflexivity.
Defined.

(** X19. Renaming a dataset to an unused name and back returns every lookup to
    what it was. *)
Theorem dataset_mv_round_trip (V : Type) (disk : option exn)
    (old new : string) (ds : Dict.t V) :
  NoDup (Dict.keys ds) ->
  old <> "--if" ->
  new <> "--if" ->
  Dict.mem ds old = true ->
  Dict.mem ds new = false ->
  let there := Shell.data (Shell.do_dataset V disk ["mv"; old; new] ds) in
  let back := Shell.data (Shell.do_dataset V disk ["mv"; new; old] there) in
  forall k, Dict.get back k = Dict.get ds k.
Proof.
  intros Hnd Hold Hnew Hin Hout there back k.
  apply dict_mem_get in Hin.
  destruct (Dict.get ds old) as [value|] eqn:Hget; [|congruence].
  assert (Hne : old <> new).
  { intros ->. unfold Dict.mem in Hout. rewrite Hget in Hout.
    discriminate. }
  subst there back.
  rewrite (do_dataset_mv_eq V disk old new value ds Hold Hget).
  cbn [Shell.data Shell.print_and_save].
  destruct (dict_move V ds old new value Hnd) as [H1 [H2 H3]].
  rewrite (do_dataset_mv_eq V disk new old value _ Hnew H1).
  cbn [Shell.data Shell.print_and_save].
  assert (Hnd' : NoDup (Dict.keys (Dict.set (Dict.del ds old) new value)))
    by now apply dict_keys_set_NoDup, dict_keys_del_NoDup.
  destruct (dict_move V _ new old value Hnd') as [B1 [B2 B3]].
  destruct (String.eqb_spec k old) as [->|Hk1]; [congruence|].
  destruct (String.eqb_spec k new) as [->|Hk2].
  - rewrite B2 by congruence. unfold Dict.mem in Hout.
    destruct (Dict.get ds new); congruence.
  - rewrite B3, H3 by assumption. reflexivity.
Qed.

Lemma dataset_mv_round_trip_witness :
  Dict.get
    (Shell.data
       (Shell.do_dataset nat None ["mv"; "night"; "day"]
          (Shell.data
             (Shell.do_dataset nat None ["mv"; "day"; "night"]
                [("day", 1%nat); ("week", 7%nat)])))) "day" =
  Dict.get [("day", 1%nat); ("week", 7%nat)] "day".
Proof.
  apply (dataset_mv_round_trip nat None "day" "night"
           [("day", 1%nat); ("week", 7%nat)]);
    try discriminate; try reflexivity.
  repeat (constructor; [cbn [In]; intuition discriminate|]). constructor.
Defined.

(** X20. [dataset ls] prints the names of the datasets in ascending order, each
    once, and changes and saves nothing. *)
Theorem dataset_ls (V : Type) (disk : option exn) (args : list string)
    (ds : Dict.t V) :
  ~ In "--if" args ->
  let r := Shell.do_dataset V disk ("ls" :: args) ds in
  Permutation (Shell.out r) (Dict.keys ds) /\
  Sorted Shell.name_le (Shell.out r) /\
  Shell.data r = ds /\
  Shell.saves r = 0%nat /\
  Shell.raised r = None.
Proof.
  intros Hn r. subst r. unfold Shell.do_dataset.
  rewrite parse_filter_none
    by (cbn [In]; intros [E|I]; [discriminate|contradiction]).
  cbn [String.eqb Ascii.eqb Bool.eqb Shell.out Shell.data Shell.saves
         Shell.raised].
  split; [apply sorted_perm|]. split; [apply sorted_sorted|auto].
Qed.

Lemma dataset_ls_witness :
  Shell.out
    (Shell.do_dataset nat None ["ls"]
       [("night", 2%nat); ("day", 1%nat); ("Week", 7%nat)]) =
  ["Week"; "day"; "night"] /\
  Sorted Shell.name_le ["Week"; "day"; "night"].
Proof.
  destruct (dataset_ls nat None []
              [("night", 2%nat); ("day", 1%nat); ("Week", 7%nat)])
    as [_ [Hs _]]; [cbn [In]; tauto|].
  split; [reflexivity|exact Hs].
Defined.

(** X21. [dataset bless] and [dataset cp] never store anything, and a filter
    is never applied.  [bless <name>] stops with [NameError] for [copy],
    whatever the name.  [cp <src> <dest>] for a source that is there leaves
    [state.data] as it was and saves nothing, whatever the two names: it
    stops with [NameError] for [copy] unless the source is named [--if];
    then the destination is read as the condition, and the command stops
    with [NameError] for [re] when the destination holds an ["="], and
    prints the usage line of [cp] when it does not.  Any command whose
    first [--if] is followed by a condition that holds an ["="] stops with
    [NameError] for [re].  In each of these cases nothing is stored and
    the state is not saved. *)
Theorem dataset_copy_and_filter_raise (V : Type) (disk : option exn)
    (ds : Dict.t V) :
  (forall name : string,
      Shell.do_dataset V disk ["bless"; name] ds =
      Shell.mk_after V [] ds 0 (Some (Shell.NameError "copy"))) /\
  (forall src dest : string,
      Dict.mem ds src = true ->
      Shell.data (Shell.do_dataset V disk ["cp"; src; dest] ds) = ds /\
      Shell.saves (Shell.do_dataset V disk ["cp"; src; dest] ds) = 0%nat /\
      (src <> "--if" ->
       Shell.do_dataset V disk ["cp"; src; dest] ds =
       Shell.mk_after V [] ds 0 (Some (Shell.NameError "copy"))) /\
      (src = "--if" ->
       Shell.do_dataset V disk ["cp"; src; dest] ds =
       if Shell.has_equals dest then
         Shell.mk_after V [] ds 0 (Some (Shell.NameError "re"))
       else
         Shell.mk_after V
           ["[FAIL] Usage: dataset cp <src> <dest> [--if <field>=<regexp>]"]
           ds 0 None)) /\
  (forall (before after : list string) (cond : string),
      ~ In "--if" before ->
      Shell.has_equals cond = true ->
      Shell.do_dataset V disk (before ++ "--if" :: cond :: after) ds =
      Shell.mk_after V [] ds 0 (Some (Shell.NameError "re"))).
Proof.
  split; [|split].
  - intros name. unfold Shell.do_dataset, Shell.parse_filter.
    cbn [Shell.index].
    destruct (String.eqb "--if" "bless") eqn:E; [discriminate|].
    destruct (String.eqb "--if" name); reflexivity.
  - intros src dest Hm.
    destruct (String.eqb_spec "--if" src) as [Heq|Hne].
    + subst src.
      assert (Hrun :
        Shell.do_dataset V disk ["cp"; "--if"; dest] ds =
        if Shell.has_equals dest then
          Shell.mk_after V [] ds 0 (Some (Shell.NameError "re"))
        else
          Shell.mk_after V
            ["[FAIL] Usage: dataset cp <src> <dest> [--if <field>=<regexp>]"]
            ds 0 None).
      { unfold Shell.do_dataset, Shell.parse_filter.
        cbn [Shell.index].
        destruct (String.eqb "--if" "cp") eqn:E; [discriminate|].
        rewrite String.eqb_refl. cbn.
        destruct (Shell.has_equals dest); reflexivity. }
      rewrite Hrun.
      repeat split.
      * destruct (Shell.has_equals dest); reflexivity.
      * destruct (Shell.has_equals dest); reflexivity.
      * intros Hc. contradiction.
    + assert (Hrun :
        Shell.do_dataset V disk ["cp"; src; dest] ds =
        Shell.mk_after V [] ds 0 (Some (Shell.NameError "copy"))).
      { unfold Shell.do_dataset, Shell.parse_filter.
        cbn [Shell.index].
        destruct (String.eqb "--if" "cp") eqn:E; [discriminate|].
        destruct (String.eqb_spec "--if" src) as [Heq|_];
          [contradiction|].
        destruct (String.eqb "--if" dest); cbn; rewrite Hm; reflexivity. }
      rewrite Hrun.
      repeat split.
      intros Hc. symmetry in Hc. contradiction.
  - intros before after cond Hn Hc.
    unfold Shell.do_dataset, Shell.parse_filter.
    rewrite index_first by assumption.
    rewrite length_app. cbn [List.length].
    destruct (Nat.ltb_spec (List.length before + 1)
                (List.length before + S (S (List.length after))));
      [|lia].
    replace (List.length before + 1)%nat with (S (List.length before))
      by lia.
    rewrite app_nth2 by lia.
    replace (S (List.length before) - List.length before)%nat with 1%nat
      by lia.
    cbn [nth]. rewrite Hc. reflexivity.
Qed.

(** X22. Whatever the tokens, [do_dataset] leaves the keys of [state.data]
    unique, saves at most once and only after changing [state.data], and
    changes [state.data] only through [rm] and [mv]: after any other
    operation the datasets are what they were. *)
Theorem dataset_changes_only_by_rm_and_mv (V : Type) (disk : option exn)
    (tokens : list string) (ds : Dict.t V) :
  let r := Shell.do_dataset V disk tokens ds in
  (NoDup (Dict.keys ds) -> NoDup (Dict.keys (Shell.data r))) /\
  (Shell.saves r <= 1)%nat /\
  (Shell.data r = ds /\ Shell.saves r = 0%nat \/
   exists args : list string,
     Shell.saves r = 1%nat /\
     (Shell.parse_filter tokens = inr ("rm" :: args) \/
      Shell.parse_filter tokens = inr ("mv" :: args))).
Proof.
  intros r. subst r. split; [apply do_dataset_NoDup|].
  unfold Shell.do_dataset.
  destruct (Shell.parse_filter tokens) as [name|[|op args]];
    cbn [Shell.data Shell.saves]; [auto..|].
  destruct (String.eqb op "ls"); [cbn; auto|].
  destruct (String.eqb op "bless");
    [destruct args as [|? [|? ?]]; cbn; auto|].
  destruct (String.eqb_spec op "rm") as [->|_].
  { destruct args as [|name [|? ?]]; cbn [Shell.data Shell.saves]; auto.
    destruct (Dict.mem ds name);
      cbn [Shell.data Shell.saves Shell.print_and_save]; auto.
    split; [lia|]. right. exists [name]. auto. }
  destruct (String.eqb op "cp").
  { destruct args as [|src [|dest [|? ?]]]; cbn; auto.
    destruct (Dict.mem ds src); cbn; auto. }
  destruct (String.eqb_spec op "mv") as [->|_]; [|cbn; auto].
  destruct args as [|old [|new [|? ?]]]; cbn [Shell.data Shell.saves]; auto.
  destruct (Dict.get ds old);
    cbn [Shell.data Shell.saves Shell.print_and_save]; auto.
  split; [lia|]. right. exists [old; new]. auto.
Qed.

(* ================================================================== *)
(** ** The [measure] command *)

Lemma slot_after_set_twice (ds : Dict.t Shell.slot) (s1 s2 : Shell.slot) :
  Dict.get (Dict.set (Dict.set ds "_" s1) "_" s2) "_" = Some s2 /\
  forall k, k <> "_" ->
            Dict.get (Dict.set (Dict.set ds "_" s1) "_" s2) k =
            Dict.get ds k.
Proof.
  split; [apply dict_get_set_same|].
  intros k Hk. now rewrite !dict_get_set_other by assumption.
Qed.

(** X23. When saving the state works, the [measure] command never raises,
    whatever the plugin returns or raises.  It saves twice, leaves every
    dataset but ["_"] as it was, and leaves under ["_"] an empty progress
    list together with either the row the plugin returned or an error
    text, never both; nothing the progress callback was given is kept,
    the spinner has moved one frame per call of the callback, and the
    output file receives text only for a returned row. *)
Theorem do_measure_records (fmt0 : Q -> string)
    (item_lines : row -> list string) (repr_row : row -> string)
    (c : Shell.command) (ds : Dict.t Shell.slot) :
  Shell.save1 c = None ->
  Shell.save2 c = None ->
  let r := Shell.do_measure fmt0 item_lines repr_row c ds in
  Shell.escaped r = None /\
  Shell.saved r = 2%nat /\
  (forall k, k <> "_" -> Dict.get (Shell.datasets r) k = Dict.get ds k) /\
  Shell.spun_after r =
    (Shell.spun c +
     List.length
       (shown (snd (_measure_async true (link (Shell.device c))))))%nat /\
  exists s : Shell.slot,
    Dict.get (Shell.datasets r) "_" = Some s /\
    Shell.s_progress s = Some [] /\
    (Shell.s_error s = None /\
     (exists result : row,
         Shell.s_measurement s = Some result /\
         returned (measure true (Shell.device c)) = Ret (Some result) /\
         (Shell.appended r <> None ->
          Shell.appended r = Some (Shell.line (repr_row result)) /\
          Shell.stripped c <> EmptyString)) \/
     Shell.s_measurement s = None /\
     Shell.appended r = None /\
     exists msg : string, Shell.s_error s = Some msg).
Proof.
  intros H1 H2 r. subst r. unfold Shell.do_measure. rewrite H1. cbv zeta.
  destruct (returned (measure true (Shell.device c))) as [[result|]|e];
    rewrite ?H2.
  - destruct (String.eqb_spec (Shell.stripped c) EmptyString) as [He|He];
      [|destruct (Shell.append c)];
      cbn [Shell.escaped Shell.saved Shell.datasets Shell.spun_after
             Shell.appended];
      (split; [reflexivity|]); (split; [reflexivity|]);
      (split; [apply slot_after_set_twice|]); (split; [reflexivity|]);
      eexists; (split; [apply slot_after_set_twice|]);
      cbn [Shell.s_progress Shell.s_error Shell.s_measurement];
      (split; [reflexivity|]); left; (split; [reflexivity|]);
      exists result; (split; [reflexivity|]); (split; [reflexivity|]);
      intros Ha; try congruence; auto.
  - cbn [Shell.escaped Shell.saved Shell.datasets Shell.spun_after
           Shell.appended].
    split; [reflexivity|]. split; [reflexivity|].
    split; [apply slot_after_set_twice|]. split; [reflexivity|].
    eexists. split; [apply slot_after_set_twice|].
    cbn [Shell.s_progress Shell.s_error Shell.s_measurement].
    split; [reflexivity|]. right. eauto.
  - cbn [Shell.escaped Shell.saved Shell.datasets Shell.spun_after
           Shell.appended].
    split; [reflexivity|]. split; [reflexivity|].
    split; [apply slot_after_set_twice|]. split; [reflexivity|].
    eexists. split; [apply slot_after_set_twice|].
    cbn [Shell.s_progress Shell.s_error Shell.s_measurement].
    split; [reflexivity|]. right. eauto.
Qed.

Lemma do_measure_records_witness :
  Shell.escaped
    (Shell.do_measure (fun _ => "120") (fun _ => []) (fun _ => "{}")
       (Shell.mk_command "out.txt"
          (mk_world
             (mk_transport None
                [OnMeasurement [x10; x78; x00; x50; x00; x5d; x00; x03; x00]])
             (Raise (BleakError "gone")) "2025-01-01 12:00:00")
          None None None 0)
       [("_", Shell.mk_slot None None None)]) = None.
Proof.
  apply (do_measure_records (fun _ => "120") (fun _ => []) (fun _ => "{}")
           (Shell.mk_command "out.txt"
              (mk_world
                 (mk_transport None
                    [OnMeasurement
                       [x10; x78; x00; x50; x00; x5d; x00; x03; x00]])
                 (Raise (BleakError "gone")) "2025-01-01 12:00:00")
              None None None 0)
           [("_", Shell.mk_slot None None None)]); reflexivity.
Defined.

(** X24. What the [measure] command keeps of a failure, when both calls
    of [state.save()] succeed.  When the session
    fails with one of the plugin's two exceptions, the plugin prints the
    reason and the shell stores only the fixed text "measurement
    aborted", whatever the reason was.  When the session captured a
    frame and the battery read then fails with a [BleakError], the shell
    stores the text of that failure and prints it, and the captured
    measurement is neither stored nor written to the output file. *)
Theorem do_measure_failure_text (fmt0 : Q -> string)
    (item_lines : row -> list string) (repr_row : row -> string)
    (c : Shell.command) (ds : Dict.t Shell.slot) :
  Shell.save1 c = None ->
  Shell.save2 c = None ->
  let r := Shell.do_measure fmt0 item_lines repr_row c ds in
  let shown_text :=
    Shell.progress_output fmt0 (Shell.spun c)
      (shown (snd (_measure_async true (link (Shell.device c))))) in
  (forall e : exn,
      fst (_measure_async true (link (Shell.device c))) = Raise e ->
      class_of e = cQardioConnectionError \/
      class_of e = cQardioMeasurementAborted ->
      Dict.get (Shell.datasets r) "_" =
        Some (Shell.mk_slot (Some []) (Some "measurement aborted") None) /\
      Shell.stdout r =
        shown_text ++ [Shell.line ("[FAIL] " ++ str_exn e)%string]) /\
  (forall (m : option reading) (msg : string),
      fst (_measure_async true (link (Shell.device c))) = Ret m ->
      battery_char (Shell.device c) = Raise (BleakError msg) ->
      Dict.get (Shell.datasets r) "_" =
        Some (Shell.mk_slot (Some [])
                (Some ("read failed: " ++ msg)%string) None) /\
      Shell.stdout r =
        shown_text ++
        [Shell.line ("[FAIL] " ++ "read failed: " ++ msg)%string] /\
      Shell.appended r = None).
Proof.
  intros H1 H2 r shown_text. subst r shown_text.
  unfold Shell.do_measure. rewrite H1. cbv zeta. split.
  - intros e Hs Hc.
    assert (Hm : measure true (Shell.device c) =
                 mk_observed [("[FAIL] " ++ str_exn e)%string] 0 (Ret None)).
    { unfold measure. rewrite Hs. destruct Hc as [-> | ->]; reflexivity. }
    rewrite Hm. cbn [returned printed map]. rewrite H2.
    cbn [Shell.datasets Shell.stdout].
    split; [apply slot_after_set_twice|reflexivity].
  - intros m msg Hs Hb.
    rewrite (measure_battery_failure true (Shell.device c) m msg Hs Hb).
    cbn [returned printed map]. rewrite H2.
    cbn [Shell.datasets Shell.stdout Shell.appended str_exn].
    split; [apply slot_after_set_twice|]. rewrite app_nil_r. auto.
Qed.

Lemma do_measure_failure_text_witness :
  Dict.get
    (Shell.datasets
       (Shell.do_measure (fun _ => "120") (fun _ => []) (fun _ => "{}")
          (Shell.mk_command "out.txt"
             (mk_world
                (mk_transport None
                   [OnMeasurement
                      [x04; xff; x00; x01; x00; x00; x00; x00; x00]])
                (Ret [x57]) "2025-01-01 12:00:00")
             None None None 0)
          [])) "_" =
  Some (Shell.mk_slot (Some []) (Some "measurement aborted") None).
Proof.
  destruct (do_measure_failure_text (fun _ => "120") (fun _ => [])
              (fun _ => "{}")
              (Shell.mk_command "out.txt"
                 (mk_world
                    (mk_transport None
                       [OnMeasurement
                          [x04; xff; x00; x01; x00; x00; x00; x00; x00]])
                    (Ret [x57]) "2025-01-01 12:00:00")
                 None None None 0)
              [] eq_refl eq_refl) as [H _].
  apply (H (QardioMeasurementAborted "arm movement")).
  - reflexivity.
  - right. reflexivity.
Defined.

(* ================================================================== *)
(** ** [read_characteristic] *)

Lemma listed_In (x : string) (names : list string) :
  Ble.listed x names = true <-> In x names.
Proof.
  unfold Ble.listed. rewrite existsb_exists. split.
  - intros [y [Hin Heq]]. apply String.eqb_eq in Heq. now subst.
  - intros Hin. exists x. split; [exact Hin|apply String.eqb_refl].
Qed.

Lemma fallback_given (adapter : option string) (valid : list string)
    (name : string) :
  Ble.fallback adapter valid = Some name ->
  Ble.given (Some name) = true ->
  In name valid.
Proof.
  unfold Ble.fallback. destruct adapter as [a|]; [|discriminate].
  destruct (Ble.given (Some a)) eqn:Hg; cbn [andb].
  - destruct (Ble.listed a valid) eqn:Hl; cbn [negb].
    + intros [= <-] _. now apply listed_In.
    + destruct valid as [|first rest]; [discriminate|].
      intros [= <-] _. now left.
  - intros [= <-] H. congruence.
Qed.

Lemma scanned_on_fallback (address : string) (adapter : option string)
    (r : Ble.radio) :
  Ble.scanned_on (Ble.read_characteristic address adapter r) =
  Ble.fallback adapter (Ble.adapters r).
Proof.
  unfold Ble.read_characteristic. cbv zeta.
  destruct (match Ble.find_on r (Ble.fallback adapter (Ble.adapters r))
            with
            | Raise (BleakError _) => Ble.find_default r
            | other => other
            end) as [[|]|e]; reflexivity.
Qed.

(** X25. [read_characteristic] never opens the client on an adapter that
    [_list_adapters] did not list: an adapter that is not listed is
    replaced by the first listed one, or dropped when none is listed, and
    a listed one is kept.  When the scan finds no device it raises
    [BleakError] without opening a client. *)
Theorem read_characteristic_adapter (address : string)
    (adapter : option string) (r : Ble.radio) :
  let call := Ble.read_characteristic address adapter r in
  (forall name : string,
      Ble.opened_on call = Some (Some name) ->
      In name (Ble.adapters r) /\ name <> EmptyString) /\
  (forall name : string,
      adapter = Some name -> name <> EmptyString ->
      Ble.scanned_on call =
      if Ble.listed name (Ble.adapters r) then Some name
      else hd_error (Ble.adapters r)) /\
  (Ble.find_on r (Ble.scanned_on call) = Ret false ->
   Ble.value call =
     Raise (BleakError ("Device " ++ address ++ " not found")%string) /\
   Ble.opened_on call = None).
Proof.
  intros call. subst call. rewrite scanned_on_fallback.
  split; [|split].
  - intros name. unfold Ble.read_characteristic. cbv zeta.
    destruct (match Ble.find_on r (Ble.fallback adapter (Ble.adapters r))
              with
              | Raise (BleakError _) => Ble.find_default r
              | other => other
              end) as [[|]|e]; cbn [Ble.opened_on]; try discriminate.
    destruct (Ble.given (Ble.fallback adapter (Ble.adapters r))) eqn:Hg;
      [|discriminate].
    intros [= Hf]. rewrite Hf in Hg. split.
    + exact (fallback_given adapter (Ble.adapters r) name Hf Hg).
    + intros ->. discriminate.
  - intros name -> Hne. unfold Ble.fallback.
    assert (Hgiven : Ble.given (Some name) = true).
    { cbn [Ble.given]. destruct (String.eqb_spec name EmptyString);
        [contradiction|reflexivity]. }
    rewrite Hgiven. cbn [andb].
    destruct (Ble.listed name (Ble.adapters r)); cbn [negb];
      [reflexivity|].
    destruct (Ble.adapters r); reflexivity.
  - intros Hf. unfold Ble.read_characteristic. cbv zeta. rewrite Hf.
    split; reflexivity.
Qed.
